(** * atooms: the simulation driver and its callback registry

    A shallow embedding of [atooms/simulation/core.py] (class [Simulation]):
    the callback registry ([add], [remove], [notify]), the restart logic of
    [run_pre], the timing helpers and the main loop of [run].

    Python objects are modelled as records, the dictionary [_cbk_params] as a
    [gmap], the list [_callback] as a [list], Python integers as [Z].  The
    collaborators that live outside this module (the backend, the schedulers,
    the observers, the clock and float arithmetic) are taken as parameters,
    bundled in two type classes. *)

From Stdlib Require Import QArith ZArith Ascii String List Lia.
From stdpp Require Import base decidable countable list gmap strings sorting.

Local Open Scope Z_scope.
Local Open Scope string_scope.
Local Open Scope list_scope.

(** ** Strings: [str.lower] and the [in] operator, on ASCII names *)

(** [c.lower()] for a single ASCII character: only A-Z are mapped. *)
Definition ascii_lower (c : ascii) : ascii :=
  let n := N_of_ascii c in
  if ((65 <=? n) && (n <=? 90))%N then ascii_of_N (n + 32) else c.

(** [s.lower()] *)
Fixpoint lower (s : string) : string :=
  match s with
  | EmptyString => EmptyString
  | String c s' => String (ascii_lower c) (lower s')
  end.

(** [s.startswith(p)] *)
Fixpoint startswith (p s : string) : bool :=
  match p, s with
  | EmptyString, _ => true
  | String a p', String b s' => if decide (a = b) then startswith p' s' else false
  | String _ _, EmptyString => false
  end.

(** [sub in s] for strings: some suffix of [s] starts with [sub]. *)
Fixpoint str_in (sub s : string) : bool :=
  if startswith sub s then true
  else match s with
       | EmptyString => false
       | String _ s' => str_in sub s'
       end.

(** ** Python values, exceptions and results *)

(** Arguments stored along with a callback ([*args], [**kwargs]). *)
Inductive value :=
| VNone
| VInt (n : Z)
| VStr (s : string).

(** The exceptions that the module raises, catches or lets through. *)
Inductive exn :=
| SimulationEnd
| KeyboardInterrupt
| AttributeError
| ZeroDivisionError
| OverflowError
| TypeError
| IndexError
| KeyError
| OtherError (what : string).

#[global] Instance exn_eq_dec : EqDecision exn.
Proof. solve_decision. Defined.

(** Outcome of a computation: a value, a raised exception, or the loop budget
    of the model was exhausted (the source loop is [while True]). *)
Inductive result (A : Type) :=
| Ret (a : A)
| Raise (e : exn)
| OutOfFuel.
Arguments Ret {A} a.
Arguments Raise {A} e.
Arguments OutOfFuel {A}.

(** ** Callbacks *)

(** An observer object: its identity, its [__name__] and whether it is an
    instance of [Speedometer].  Two records are the same Python object
    exactly when they are equal. *)
Record Callback := {
  cb_id : nat;
  __name__ : string;
  is_Speedometer : bool
}.

#[global] Instance Callback_eq_dec : EqDecision Callback.
Proof. solve_decision. Defined.

#[global] Instance Callback_countable : Countable Callback :=
  inj_countable'
    (fun c => (cb_id c, __name__ c, is_Speedometer c))
    (fun t => {| cb_id := t.1.1; __name__ := t.1.2; is_Speedometer := t.2 |})
    (fun c => match c with Build_Callback _ _ _ => eq_refl end).

(** ['target' in callback.__name__.lower()] *)
Definition is_targeter (callback : Callback) : bool :=
  str_in "target" (lower (__name__ callback)).

(** ** Collaborators' data *)

(** Types owned by other modules. *)
Class Foreign := {
  (** [atooms.simulation.observers.Scheduler] and any other callable used as
      a scheduler *)
  Scheduler : Type;
  (** Python floats *)
  float : Type;
  (** elements of [system.particle] *)
  Particle : Type;
  (** everything outside the engine: files, the clock, the backend's private
      state, the observers' private state *)
  Env : Type
}.

Section Model.
Context `{F : Foreign}.

(** [atooms.system.System]: only [particle] is read here, a list of
    particles ([None] when the attribute has been set so). *)
Record System := {
  particle : option (list Particle)
}.

(** The backend's attributes that the engine reads or writes
    ([backend.steps], [backend.output_path], [backend.system],
    [backend.rmsd], [backend.version]).  A missing attribute is [None]; for
    [system], [None] also stands for the Python value [None]: reading
    [.particle] raises [AttributeError] in both cases. *)
Record Backend := {
  backend_steps : Z;
  backend_output_path : option string;
  system : option System;
  backend_rmsd : option float;
  version : option string
}.

(** [self._cbk_params[callback]]: a dict with the keys ['scheduler'],
    ['args'] and ['kwargs']. *)
Record Params := {
  scheduler : Scheduler;
  args : list value;
  kwargs : list (string * value)
}.

(** The attributes of a [Simulation] instance. *)
Record Simulation := {
  backend : Backend;
  restart : bool;
  output_path : option string;
  max_steps : Z;
  enable_speedometer : bool;
  _checkpoint_scheduler : Scheduler;
  _targeter_steps : Callback;
  _cbk_params : gmap Callback Params;
  _callback : list Callback;
  steps : Z;
  initial_steps : Z;
  start_time : float
}.

(** ** What the engine does to the outside, as a trace *)

Inductive level := DEBUG | INFO | ERROR.

Inductive event :=
| Log (lvl : level) (msg : string)           (* log.debug / info / error *)
| Mkdir (d : string)                         (* mkdir(os.path.dirname(..)) *)
| Call (o : Callback) (at_steps : Z)         (* o(self, *args, **kwargs) *)
| Clear (cbk : Callback)                     (* cbk.clear(self) *)
| SetBackendOutputPath (p : option string)   (* self.backend.output_path = .. *)
| BackendRunPre (restarting : bool)          (* self.backend.run_pre(..) *)
| BackendRunUntil (n : Z)                    (* self.backend.run_until(n) *)
| WriteCheckpoint (at_steps : Z)             (* self.write_checkpoint() *)
| Barrier.                                   (* barrier() *)

#[global] Instance level_eq_dec : EqDecision level.
Proof. solve_decision. Defined.

#[global] Instance value_eq_dec : EqDecision value.
Proof. solve_decision. Defined.

#[global] Instance event_eq_dec : EqDecision event.
Proof. solve_decision. Defined.

(** The state threaded through every method: the instance, the outside
    world and the trace of what has been done so far. *)
Record World := {
  self : Simulation;
  env : Env;
  trace : list event
}.

(** ** The state-and-exception monad of the methods *)

Definition M (A : Type) : Type := World -> result A * World.

Definition ret {A} (a : A) : M A := fun w => (Ret a, w).

Definition raise {A} (e : exn) : M A := fun w => (Raise e, w).

Definition bind {A B} (m : M A) (k : A -> M B) : M B :=
  fun w =>
    match m w with
    | (Ret a, w') => k a w'
    | (Raise e, w') => (Raise e, w')
    | (OutOfFuel, w') => (OutOfFuel, w')
    end.

(** [try: body except <those e with handler e = Some h>: h] *)
Definition try_except {A} (body : M A) (handler : exn -> option (M A)) : M A :=
  fun w =>
    match body w with
    | (Raise e, w') =>
        match handler e with
        | Some h => h w'
        | None => (Raise e, w')
        end
    | r => r
    end.

(** [try: body finally: fin] *)
Definition try_finally {A} (body : M A) (fin : M unit) : M A :=
  fun w =>
    match body w with
    | (OutOfFuel, w') => (OutOfFuel, w')
    | (r, w') =>
        match fin w' with
        | (Ret _, w'') => (r, w'')
        | (Raise e, w'') => (Raise e, w'')
        | (OutOfFuel, w'') => (OutOfFuel, w'')
        end
    end.

Definition get_self : M Simulation := fun w => (Ret (self w), w).

Definition set_self (f : Simulation -> Simulation) : M unit :=
  fun w => (Ret tt, {| self := f (self w); env := env w; trace := trace w |}).

Definition emit (e : event) : M unit :=
  fun w => (Ret tt, {| self := self w; env := env w; trace := trace w ++ [e] |}).

(** Attribute assignments, [self.x = v]. *)
Definition set_backend (b : Backend) (s : Simulation) : Simulation :=
  {| backend := b; restart := restart s; output_path := output_path s;
     max_steps := max_steps s; enable_speedometer := enable_speedometer s;
     _checkpoint_scheduler := _checkpoint_scheduler s;
     _targeter_steps := _targeter_steps s; _cbk_params := _cbk_params s;
     _callback := _callback s; steps := steps s;
     initial_steps := initial_steps s; start_time := start_time s |}.

Definition set_max_steps (n : Z) (s : Simulation) : Simulation :=
  {| backend := backend s; restart := restart s; output_path := output_path s;
     max_steps := n; enable_speedometer := enable_speedometer s;
     _checkpoint_scheduler := _checkpoint_scheduler s;
     _targeter_steps := _targeter_steps s; _cbk_params := _cbk_params s;
     _callback := _callback s; steps := steps s;
     initial_steps := initial_steps s; start_time := start_time s |}.

Definition set_registry (cbs : list Callback) (ps : gmap Callback Params)
    (s : Simulation) : Simulation :=
  {| backend := backend s; restart := restart s; output_path := output_path s;
     max_steps := max_steps s; enable_speedometer := enable_speedometer s;
     _checkpoint_scheduler := _checkpoint_scheduler s;
     _targeter_steps := _targeter_steps s; _cbk_params := ps;
     _callback := cbs; steps := steps s;
     initial_steps := initial_steps s; start_time := start_time s |}.

Definition set_steps (n : Z) (s : Simulation) : Simulation :=
  {| backend := backend s; restart := restart s; output_path := output_path s;
     max_steps := max_steps s; enable_speedometer := enable_speedometer s;
     _checkpoint_scheduler := _checkpoint_scheduler s;
     _targeter_steps := _targeter_steps s; _cbk_params := _cbk_params s;
     _callback := _callback s; steps := n;
     initial_steps := initial_steps s; start_time := start_time s |}.

Definition set_initial_steps (n : Z) (s : Simulation) : Simulation :=
  {| backend := backend s; restart := restart s; output_path := output_path s;
     max_steps := max_steps s; enable_speedometer := enable_speedometer s;
     _checkpoint_scheduler := _checkpoint_scheduler s;
     _targeter_steps := _targeter_steps s; _cbk_params := _cbk_params s;
     _callback := _callback s; steps := steps s;
     initial_steps := n; start_time := start_time s |}.

Definition set_start_time (t : float) (s : Simulation) : Simulation :=
  {| backend := backend s; restart := restart s; output_path := output_path s;
     max_steps := max_steps s; enable_speedometer := enable_speedometer s;
     _checkpoint_scheduler := _checkpoint_scheduler s;
     _targeter_steps := _targeter_steps s; _cbk_params := _cbk_params s;
     _callback := _callback s; steps := steps s;
     initial_steps := initial_steps s; start_time := t |}.

(** [backend.steps = n] and [backend.output_path = p] *)
Definition set_backend_steps (n : Z) (b : Backend) : Backend :=
  {| backend_steps := n; backend_output_path := backend_output_path b;
     system := system b; backend_rmsd := backend_rmsd b;
     version := version b |}.

Definition set_backend_output_path (p : option string) (b : Backend) : Backend :=
  {| backend_steps := backend_steps b; backend_output_path := p;
     system := system b; backend_rmsd := backend_rmsd b;
     version := version b |}.

End Model.

Declare Scope py_scope.
Delimit Scope py_scope with py.
Notation "x <- m ;; k" := (bind m (fun x => k))
  (at level 100, m at next level, right associativity) : py_scope.
Notation "m ;; k" := (bind m (fun _ => k))
  (at level 100, right associativity) : py_scope.

Local Open Scope py_scope.

(** ** Collaborators' behaviour *)

(** What the engine calls but does not define.  A foreign call either returns
    ([None]) or raises ([Some e]).  Schedulers and observers receive the
    engine to read it; the registry, the counters and the configuration are
    written by the engine's own methods only. *)
Class Contracts `{F : Foreign} := {
  (** [Scheduler(interval, calls=.., target=..)] *)
  Scheduler_new : option Z -> option Z -> option Z -> Scheduler;
  (** [scheduler(self)]: the next step at which the observer is due *)
  call_scheduler : Scheduler -> Simulation -> Z;
  (** [o(self, *args, **kwargs)] *)
  call_observer :
    Callback -> Simulation -> list value -> list (string * value) ->
    Env -> option exn * Env;
  (** [cbk.clear]; [None] when the observer has no such attribute *)
  clear_hook : Callback -> option (Simulation -> Env -> option exn * Env);
  (** [s._init = False] on a speedometer *)
  reinit_speedometer : Callback -> Env -> Env;
  (** [backend.run_pre(restart)], [backend.run_until(steps)] *)
  backend_run_pre : bool -> Backend -> Env -> option exn * Backend * Env;
  backend_run_until : Z -> Backend -> Env -> option exn * Backend * Env;
  (** [backend.write_checkpoint]; [None] when the backend has no such method *)
  backend_write_checkpoint :
    option (Backend -> Env -> option exn * Backend * Env);
  (** [s.interval] and [s.calls] of a scheduler: [None] when the scheduler
      (any callable may be registered as one) has no such attribute *)
  get_interval : Scheduler -> option value;
  get_calls : Scheduler -> option value;
  (** [DryRunBackend()], [Speedometer()], [target_steps] *)
  DryRunBackend : Backend;
  Speedometer_new : Callback;
  target_steps : Callback;
  (** [os.path.dirname] *)
  dirname : string -> string;
  (** [time.time()] and float arithmetic *)
  time_time : Env -> float;
  fzero : float;
  fsub : float -> float -> float;
  fdiv : float -> float -> float;
  float_of_int : Z -> float
}.

Section Engine.
Context `{C : Contracts}.

(** Lifting of foreign calls into [M]. *)
Definition outcome (o : option exn) : result unit :=
  match o with
  | None => Ret tt
  | Some e => Raise e
  end.

Definition foreign (f : Simulation -> Env -> option exn * Env) : M unit :=
  fun w =>
    let '(o, env') := f (self w) (env w) in
    (outcome o, {| self := self w; env := env'; trace := trace w |}).

Definition foreign_backend
    (f : Backend -> Env -> option exn * Backend * Env) : M unit :=
  fun w =>
    let '(o, b', env') := f (backend (self w)) (env w) in
    (outcome o, {| self := set_backend b' (self w); env := env';
                   trace := trace w |}).

Definition get_env : M Env := fun w => (Ret (env w), w).

(** [except AttributeError: <h>] *)
Definition on_AttributeError {A} (h : M A) (e : exn) : option (M A) :=
  match e with
  | AttributeError => Some h
  | _ => None
  end.

(** ** The callback registry *)

(** [x in l] *)
Definition list_in (x : Callback) (l : list Callback) : bool :=
  bool_decide (x ∈ l).

(** [l.remove(x)]: drops the first occurrence; guarded by [x in l] at each
    call site, so the [ValueError] of an absent item never arises. *)
Fixpoint list_remove (x : Callback) (l : list Callback) : list Callback :=
  match l with
  | [] => []
  | y :: l' => if decide (x = y) then l' else y :: list_remove x l'
  end.

(** The second argument of [add]: an [int] or a scheduler object. *)
Inductive scheduler_arg :=
| AsInt (n : Z)
| AsScheduler (s : Scheduler).

(** [Scheduler(scheduler) if type(scheduler) is int else scheduler] *)
Definition as_scheduler (scheduler : scheduler_arg) : Scheduler :=
  match scheduler with
  | AsInt n => Scheduler_new (Some n) None None
  | AsScheduler sch => sch
  end.

Definition add (callback : Callback) (scheduler : scheduler_arg)
    (args : list value) (kwargs : list (string * value))
    (s : Simulation) : Simulation :=
  (* If the callback is already there we replace it *)
  let cbs :=
    if list_in callback (_callback s) then list_remove callback (_callback s)
    else _callback s in
  (* Accept an integer interval *)
  let scheduler := as_scheduler scheduler in
  let params :=
    <[callback := {| scheduler := scheduler; args := args; kwargs := kwargs |}]>
      (_cbk_params s) in
  (* Keep targeters last *)
  if negb (is_targeter callback)
  then set_registry (callback :: cbs) params s
  else set_registry (cbs ++ [callback]) params s.

Definition remove (callback : Callback) : M unit :=
  s <- get_self;;
  if list_in callback (_callback s)
  then set_self (set_registry (list_remove callback (_callback s))
                              (delete callback (_cbk_params s)))
  else emit (Log DEBUG "attempt to remove inexistent callback %s (dont worry)").

(** One observer call of [notify]. *)
Definition call (o : Callback) : M unit :=
  s <- get_self;;
  emit (Log DEBUG "notify %s at step %d");;
  match _cbk_params s !! o with
  | None => raise KeyError
  | Some p =>
      emit (Call o (steps s));;
      foreign (fun s => call_observer o s (args p) (kwargs p))
  end.

Fixpoint notify (observers : list Callback) : M unit :=
  match observers with
  | [] => ret tt
  | o :: observers' => call o;; notify observers'
  end.

Definition _targeters (s : Simulation) : list Callback :=
  List.filter is_targeter (_callback s).

Definition _non_targeters (s : Simulation) : list Callback :=
  List.filter (fun o => negb (is_targeter o)) (_callback s).

Definition _speedometers (s : Simulation) : list Callback :=
  List.filter is_Speedometer (_callback s).

(** ** Checkpoints and timing *)

Definition write_checkpoint : M unit :=
  s <- get_self;;
  emit (WriteCheckpoint (steps s));;
  (* Tolerate missing implementation *)
  try_except
    match backend_write_checkpoint with
    | None => raise AttributeError
    | Some f => foreign_backend f
    end
    (on_AttributeError (ret tt)).

Definition rmsd (s : Simulation) : float :=
  match backend_rmsd (backend s) with
  | Some r => r
  | None => fzero
  end.

Definition elapsed_wall_time : M float :=
  s <- get_self;;
  e <- get_env;;
  ret (fsub (time_time e) (start_time s)).

(** Conversion of a Python integer to a float fails from
    [2^1024 - 2^970] on (the first integer that rounds to infinity). *)
Definition int_too_large (d : Z) : bool :=
  (2 ^ 1024 - 2 ^ 970 <=? Z.abs d)%Z.

(** [x / d] for a float [x] and an integer [d]. *)
Definition truediv (x : float) (d : Z) : M float :=
  if int_too_large d then raise OverflowError
  else if (d =? 0)%Z then raise ZeroDivisionError
  else ret (fdiv x (float_of_int d)).

Definition wall_time_per_step : M float :=
  t <- elapsed_wall_time;;
  s <- get_self;;
  truediv t (steps s - initial_steps s).

(** [len(self.system.particle)] *)
Definition len_system_particle : M Z :=
  s <- get_self;;
  match system (backend s) with
  | None => raise AttributeError
  | Some sys =>
      match particle sys with
      | None => raise TypeError
      | Some ps => ret (Z.of_nat (length ps))
      end
  end.

Definition wall_time_per_step_particle : M float :=
  try_except
    ((* Be tolerant if there is no reference to system *)
     t <- wall_time_per_step;;
     n <- len_system_particle;;
     truediv t n)
    (on_AttributeError (ret fzero)).

(** ** Restart handling *)

(** [try: cbk.clear(self) except AttributeError: pass] *)
Definition clear (cbk : Callback) : M unit :=
  try_except
    match clear_hook cbk with
    | None => raise AttributeError
    | Some h => emit (Clear cbk);; foreign h
    end
    (on_AttributeError (ret tt)).

Fixpoint clear_all (cbks : list Callback) : M unit :=
  match cbks with
  | [] => ret tt
  | cbk :: cbks' => clear cbk;; clear_all cbks'
  end.

Definition run_pre : M unit :=
  e <- get_env;;
  set_self (set_start_time (time_time e));;
  s <- get_self;;
  match output_path s with
  | Some p =>
      emit (SetBackendOutputPath (Some p));;
      set_self (fun s => set_backend (set_backend_output_path (Some p) (backend s)) s);;
      if negb (restart s)
      then (* Clean up the trajectory folder and files. *)
           clear_all (_callback s)
      else ret tt
  | None => ret tt
  end;;
  emit (BackendRunPre (restart s));;
  foreign_backend (backend_run_pre (restart s));;
  (* If backend has reset the step because of restart, we update it. *)
  s <- get_self;;
  (if restart s
   then set_self (set_steps (backend_steps (backend s)))
   else ret tt);;
  emit Barrier.

Definition run_until (n : Z) : M unit :=
  emit (BackendRunUntil n);;
  foreign_backend (backend_run_until n);;
  set_self (fun s => set_backend (set_backend_steps n (backend s)) s);;
  set_self (set_steps n).

(** ** Reports *)

Definition report_header : M unit :=
  s <- get_self;;
  emit (Log INFO "");;
  emit (Log INFO "atooms simulation via %s backend");;
  emit (Log INFO "");;
  emit (Log INFO "atooms version: %s+%s (%s)");;
  match version (backend s) with
  | Some _ => emit (Log INFO "backend version: %s")
  | None => ret tt
  end;;
  emit (Log INFO "simulation starts on: %s");;
  emit (Log INFO "output path: %s").

(** Implemented by subclasses *)
Definition _report : M unit := ret tt.

Fixpoint _report_observers_from (fs : list Callback) : M unit :=
  match fs with
  | [] => ret tt
  | f :: fs' =>
      s <- get_self;;
      match _cbk_params s !! f with
      | None => raise KeyError
      | Some params =>
          if is_targeter f
          then match args params with
               | [] => raise IndexError
               | _ :: _ => emit (Log INFO "target %s: %s")
               end
          else match get_interval (scheduler params) with
               | None => raise AttributeError
               | Some _ =>
                   match get_calls (scheduler params) with
                   | None => raise AttributeError
                   | Some _ =>
                       emit (Log INFO "writer %s: interval=%s calls=%s")
                   end
               end
      end;;
      _report_observers_from fs'
  end.

Definition _report_observers : M unit :=
  s <- get_self;;
  _report_observers_from (_callback s).

Definition report : M unit :=
  _report;;
  _report_observers.

Definition _report_end : M unit :=
  emit (Log INFO "simulation ended on: %s");;
  emit (Log INFO "final steps: %d");;
  emit (Log INFO "final rmsd: %.2f");;
  _ <- elapsed_wall_time;;
  emit (Log INFO "wall time [s]: %.1f");;
  _ <- wall_time_per_step_particle;;
  emit (Log INFO "average TSP [s/step/particle]: %.2e").

(** ** The main loop *)

(** [min(l)]; [None] stands for the [ValueError] of an empty list. *)
Fixpoint py_min (l : list Z) : option Z :=
  match l with
  | [] => None
  | x :: l' =>
      match py_min l' with
      | None => Some x
      | Some m => Some (Z.min x m)
      end
  end.

(** [enumerate(l)] *)
Definition enumerate {A} (l : list A) : list (nat * A) :=
  imap (fun i x => (i, x)) l.

(** [[self._cbk_params[c]['scheduler'](self) for c in self._callback]] *)
Definition all_steps_of (s : Simulation) : option (list Z) :=
  mapM (fun c => p ← _cbk_params s !! c; Some (call_scheduler (scheduler p) s))
       (_callback s).

(** [[i for i, step in enumerate(all_steps) if step == next_step]] *)
Definition next_step_ids_of (all_steps : list Z) (next_step : Z) : list nat :=
  fst <$> List.filter (fun '(i, step) => (step =? next_step)%Z)
                      (enumerate all_steps).

(** [[self._callback[i] for i in next_step_ids]] *)
Definition next_observers_of (s : Simulation) (next_step_ids : list nat)
  : option (list Callback) :=
  mapM (fun i => _callback s !! i) next_step_ids.

(** One iteration of [while True]. *)
Definition loop_body : M unit :=
  s <- get_self;;
  (* Run simulation until any of the observers need to be called *)
  match all_steps_of s with
  | None => raise KeyError
  | Some all_steps =>
      let next_checkpoint := call_scheduler (_checkpoint_scheduler s) s in
      match py_min (all_steps ++ [next_checkpoint]) with
      | None => raise (OtherError "ValueError")
      | Some next_step =>
          run_until next_step;;
          (* Find observers indexes corresponding to minimum step
             then get all corresponding observers *)
          s <- get_self;;
          let next_step_ids := next_step_ids_of all_steps next_step in
          match next_observers_of s next_step_ids with
          | None => raise IndexError
          | Some next_observers =>
              notify next_observers;;
              s <- get_self;;
              if (steps s =? next_checkpoint)%Z
              then write_checkpoint
              else ret tt
          end
      end
  end.

Fixpoint main_loop (fuel : nat) : M unit :=
  match fuel with
  | O => fun w => (OutOfFuel, w)
  | S fuel' => loop_body;; main_loop fuel'
  end.

(** ** [run] *)

(** Lines 253-257: a fresh run resets the target and the counters. *)
Definition run_reset (steps_arg : option Z) : M unit :=
  s <- get_self;;
  if negb (restart s) || (steps s =? 0)%Z
  then match steps_arg with
       | Some n => set_self (set_max_steps n)
       | None => ret tt
       end;;
       set_self (set_steps 0);;
       set_self (fun s => set_backend (set_backend_steps 0 (backend s)) s)
  else ret tt.

Fixpoint reinit_speedometers (l : list Callback) : M unit :=
  match l with
  | [] => ret tt
  | sp :: l' =>
      (fun w => (Ret tt, {| self := self w;
                            env := reinit_speedometer sp (env w);
                            trace := trace w |}));;
      reinit_speedometers l'
  end.

(** The suite of the [try] statement: the initial notifications, then the
    loop. *)
Definition initial_notifications : M unit :=
  s <- get_self;;
  (* Before entering the simulation, check if we can quit right away *)
  notify (_targeters s);;
  (* Then notify non targeters unless we are restarting *)
  s <- get_self;;
  if (steps s =? 0)%Z
  then notify (_non_targeters s)
  else notify (_speedometers s).

Definition run_body (fuel : nat) : M unit :=
  initial_notifications;;
  emit (Log INFO "starting at step: %d");;
  emit (Log INFO "");;
  main_loop fuel.

(** The [except] clauses of [run], in order. *)
Definition run_handlers (e : exn) : option (M unit) :=
  match e with
  | SimulationEnd =>
      Some ((* Checkpoint configuration at last step *)
            write_checkpoint;;
            (* We ignore errors due to performed steps being zero *)
            try_except _report_end (fun _ => Some (ret tt)))
  | KeyboardInterrupt => Some (ret tt)
  | _ => Some (emit (Log ERROR "simulation failed");; raise e)
  end.

(** The [try] statement of [run], lines 269-314. *)
Definition run_protected (fuel : nat) : M unit :=
  try_finally
    (try_except (run_body fuel) run_handlers)
    (emit (Log INFO "goodbye")).

(** Lines 259-267. *)
Definition run_setup : M unit :=
  (* Targeter for max steps. Note that this will the replace an existing one. *)
  s <- get_self;;
  set_self (add (_targeter_steps s)
                (AsScheduler (Scheduler_new (Some (max_steps s)) None None))
                [VInt (max_steps s)] []);;
  report_header;;
  run_pre;;
  s <- get_self;;
  set_self (set_initial_steps (steps s));;
  report;;
  (* Reinitialize speedometers *)
  s <- get_self;;
  reinit_speedometers (_speedometers s).

(** Lines 253-267. *)
Definition run_prelude (steps_arg : option Z) : M unit :=
  run_reset steps_arg;;
  run_setup.

Definition run (fuel : nat) (steps_arg : option Z) : M unit :=
  run_prelude steps_arg;;
  run_protected fuel.

(** ** The constructor

    The outside calls of the constructor ([mkdir], [Scheduler(..)],
    [time.time()], [DryRunBackend()], [Speedometer()]) are taken to return.
    Line 77 copies [backend.trajectory] into [self.trajectory], which no
    method of the class reads: the copy is left out, the backend being taken
    to have that attribute. *)

Definition __init__ (backend : option Backend) (output_path : option string)
    (steps checkpoint_interval : Z) (enable_speedometer restart : bool)
    (e : Env) : World :=
  let s :=
    {| backend := match backend with Some b => b | None => DryRunBackend end;
       restart := restart;
       output_path := output_path;
       max_steps := steps;
       enable_speedometer := enable_speedometer;
       _checkpoint_scheduler := Scheduler_new (Some checkpoint_interval) None None;
       _targeter_steps := target_steps;
       _cbk_params := ∅;
       _callback := [];
       steps := 0;
       initial_steps := 0;
       start_time := time_time e |} in
  {| self :=
       if enable_speedometer
       then add Speedometer_new
                (AsScheduler (Scheduler_new None (Some 20) (Some steps))) [] [] s
       else s;
     env := e;
     trace := match output_path with
              | Some p => [Mkdir (dirname p)]
              | None => []
              end |}.

(** ** Vocabulary of the statements *)

(** A use of the registry's interface. *)
Inductive registry_op :=
| Add (callback : Callback) (scheduler : scheduler_arg)
      (args : list value) (kwargs : list (string * value))
| Remove (callback : Callback).

Definition apply_op (op : registry_op) : M unit :=
  match op with
  | Add callback scheduler args kwargs =>
      set_self (add callback scheduler args kwargs)
  | Remove callback => remove callback
  end.

Fixpoint apply_ops (ops : list registry_op) : M unit :=
  match ops with
  | [] => ret tt
  | op :: ops' => apply_op op;; apply_ops ops'
  end.

(** The registrations that are live after [ops], oldest first: [add] puts
    the callback last (dropping its earlier registration), [remove] drops
    it. *)
Definition insertion_step (hist : list Callback) (op : registry_op)
  : list Callback :=
  match op with
  | Add callback _ _ _ => list_remove callback hist ++ [callback]
  | Remove callback => list_remove callback hist
  end.

Definition insertion_order (ops : list registry_op) (hist : list Callback)
  : list Callback :=
  fold_left insertion_step ops hist.

Definition ordinary (o : Callback) : bool := negb (is_targeter o).

(** [y is not c], as a filter. *)
Definition other_than (c : Callback) (y : Callback) : bool :=
  negb (bool_decide (y = c)).

(** The notification order that the engine keeps for a history [hist] of
    live registrations: the ordinary observers, latest first, then the
    targeters, oldest first. *)
Definition order_of (hist : list Callback) : list Callback :=
  rev (List.filter ordinary hist) ++ List.filter is_targeter hist.

(** The action [m] leaves the observation [f] of the state as it was,
    whatever its outcome. *)
Definition keeps {X A} (f : World -> X) (m : M A) : Prop :=
  forall w, f (m w).2 = f w.

(** The action [m] needs no loop budget. *)
Definition terminates {A} (m : M A) : Prop :=
  forall w, (m w).1 <> OutOfFuel.

(** An observation of the instance alone. *)
Definition on_self {X} (proj : Simulation -> X) : World -> X :=
  fun w => proj (self w).

(** [proj] reads none of the attributes that the run updates along the way:
    the backend, the step counters and the start time. *)
Definition configuration {X} (proj : Simulation -> X) : Prop :=
  (forall b s, proj (set_backend b s) = proj s) /\
  (forall n s, proj (set_steps n s) = proj s) /\
  (forall n s, proj (set_initial_steps n s) = proj s) /\
  (forall t s, proj (set_start_time t s) = proj s).

(** [hasattr(cbk, 'clear')] *)
Definition has_clear (cbk : Callback) : bool :=
  match clear_hook cbk with
  | Some _ => true
  | None => false
  end.

(** The observers whose reset hook [run_pre] calls: those that have one,
    when an output path is set and the run does not restart. *)
Definition to_clear (s : Simulation) : list Callback :=
  match output_path s with
  | Some _ => if restart s then [] else List.filter has_clear (_callback s)
  | None => []
  end.


(** The world [w] with [evs] added to its trace. *)
Definition logged (w : World) (evs : list event) : World :=
  {| self := self w; env := env w; trace := trace w ++ evs |}.

(** The lines of the final report: the last one is missing when the time
    per step and particle cannot be computed. *)
Definition final_report (complete : bool) : list event :=
  [Log INFO "simulation ended on: %s"; Log INFO "final steps: %d";
   Log INFO "final rmsd: %.2f"; Log INFO "wall time [s]: %.1f"] ++
  (if complete then [Log INFO "average TSP [s/step/particle]: %.2e"] else []).

(** The keys of [_cbk_params] are the callbacks of [_callback]. *)
Definition keys_match (s : Simulation) : Prop :=
  dom (_cbk_params s) = list_to_set (_callback s).

(** The line that [_report_observers] logs for the callback [f]. *)
Definition observer_line (f : Callback) : event :=
  if is_targeter f then Log INFO "target %s: %s"
  else Log INFO "writer %s: interval=%s calls=%s".

(** [args[0]] exists for the targeter [f]: the report reads it. *)
Definition has_target_argument (s : Simulation) (f : Callback) : bool :=
  negb (is_targeter f) ||
  match _cbk_params s !! f with
  | Some p => match args p with [] => false | _ :: _ => true end
  | None => false
  end.

(** [s.interval] and [s.calls] exist for the scheduler of [f], when [f] is
    not a targeter: the report reads them. *)
Definition has_interval_and_calls (s : Simulation) (f : Callback) : bool :=
  is_targeter f ||
  match _cbk_params s !! f with
  | Some p =>
      match get_interval (scheduler p), get_calls (scheduler p) with
      | Some _, Some _ => true
      | _, _ => false
      end
  | None => false
  end.

(** The line of [f] can be written. *)
Definition reportable (s : Simulation) (f : Callback) : bool :=
  has_target_argument s f && has_interval_and_calls s f.



(** The reset hook of [cbk] returns, or raises the [AttributeError] that
    [run_pre] drops; the reset hook of [cbk] raises [x], which [run_pre]
    does not catch. *)
Definition clear_returns (cbk : Callback) : Prop :=
  forall h s e, clear_hook cbk = Some h ->
    (h s e).1 = None \/ (h s e).1 = Some AttributeError.

Definition clear_raises (cbk : Callback) (x : exn) : Prop :=
  x <> AttributeError /\
  exists h, clear_hook cbk = Some h /\ forall s e, (h s e).1 = Some x.

(** The lines that the [try] statement of [run] logs about the outcome of
    the run: the failure line and the completion marker. *)
Definition is_run_mark (ev : event) : bool :=
  bool_decide (ev = Log ERROR "simulation failed") ||
  bool_decide (ev = Log INFO "goodbye").

Definition run_marks (tr : list event) : list event :=
  List.filter is_run_mark tr.

(** The registry of an instance: the order and the parameter table. *)
Definition registry (s : Simulation)
  : list Callback * gmap Callback Params :=
  (_callback s, _cbk_params s).

(** Every callback of the notification order has its parameters stored. *)
Definition registry_consistent (s : Simulation) : Prop :=
  forall c, c ∈ _callback s -> is_Some (_cbk_params s !! c).

(** The observers called, the observers cleared and the checkpoints
    requested in a piece of trace. *)
Definition calls_of (tr : list event) : list Callback :=
  omap (fun ev => match ev with Call o _ => Some o | _ => None end) tr.

Definition clears_of (tr : list event) : list Callback :=
  omap (fun ev => match ev with Clear c => Some c | _ => None end) tr.

Definition checkpoints_of (tr : list event) : list Z :=
  omap (fun ev => match ev with WriteCheckpoint n => Some n | _ => None end) tr.

(** The instance together with the reset hooks called so far. *)
Definition self_and_clears (w : World) : Simulation * list Callback :=
  (self w, clears_of (trace w)).

(** What [notify observers] leaves in the trace when no observer raises. *)
Definition notify_events (observers : list Callback) (at_steps : Z)
  : list event :=
  flat_map (fun o => [Log DEBUG "notify %s at step %d"; Call o at_steps])
           observers.

End Engine.

(** ** A concrete set of collaborators

    Used to run the engine on examples: interval schedulers, floats as
    rationals, a clock that the backend advances by one tick per call of
    [run_until], and observers that behave according to their name. *)
Module Demo.

Record sched := {
  interval : option Z;
  calls : option Z;
  target : option Z
}.

(** A scheduler is an instance of [Scheduler] or a plain function of the
    simulation; the functions used here ask for a fixed step. *)
Inductive callable :=
| Periodic (sc : sched)
| Lambda (next : Z).

Definition foreign : Foreign :=
  {| Scheduler := callable; float := Q; Particle := unit; Env := Z |}.

Definition maxsize : Z := 2 ^ 63 - 1.

(** Next multiple of the interval after the current step; an interval that
    is absent or not positive never fires. *)
Definition next_multiple (i : Z) (now : Z) : Z :=
  if (0 <? i)%Z then ((now / i + 1) * i)%Z else maxsize.

Definition sched_call (sch : callable) (s : @Simulation foreign) : Z :=
  match sch with
  | Periodic sc =>
      match interval sc with
      | Some i => next_multiple i (steps s)
      | None =>
          match calls sc, target sc with
          | Some c, Some t => next_multiple (Z.max 1 (t / c)) (steps s)
          | _, _ => maxsize
          end
      end
  | Lambda next => next
  end.

(** An attribute of a [Scheduler] instance; a function has none. *)
Definition sched_attr (attr : sched -> option Z) (sch : callable)
  : option value :=
  match sch with
  | Periodic sc =>
      Some (match attr sc with Some n => VInt n | None => VNone end)
  | Lambda _ => None
  end.

(** ["target_steps"] ends the run once its first argument is reached,
    ["interrupt"] and ["crash"] raise as soon as a step has been made, every
    other observer returns. *)
Definition observer (o : Callback) (s : @Simulation foreign)
    (args : list value) (kwargs : list (string * value)) (e : Z)
  : option exn * Z :=
  if decide (__name__ o = "target_steps") then
    match args with
    | VInt n :: _ => if (n <=? steps s)%Z then (Some SimulationEnd, e) else (None, e)
    | _ => (Some TypeError, e)
    end
  else if decide (__name__ o = "interrupt") then
    if (0 <? steps s)%Z then (Some KeyboardInterrupt, e) else (None, e)
  else if decide (__name__ o = "crash") then
    if (0 <? steps s)%Z then (Some (OtherError "crash"), e) else (None, e)
  else (None, e).

(** Writers have a [clear] method, targeters and speedometers have none;
    the one of ["write_locked"] fails. *)
Definition clear_of (o : Callback)
  : option (@Simulation foreign -> Z -> option exn * Z) :=
  if is_targeter o || is_Speedometer o then None
  else if decide (__name__ o = "write_locked")
       then Some (fun _ e => (Some (OtherError "locked"), e))
       else Some (fun _ e => (None, e)).

(** The backend writes its checkpoint unless the disk is full. *)
Definition checkpoint (b : @Backend foreign) (e : Z)
  : option exn * @Backend foreign * Z :=
  if decide (backend_output_path b = Some "full/traj.xyz")
  then (Some (OtherError "disk full"), b, e)
  else (None, b, e).

Definition dry_run : @Backend foreign :=
  {| backend_steps := 0; backend_output_path := None; system := None;
     backend_rmsd := None; version := None |}.

Definition contracts : @Contracts foreign :=
  {| Scheduler_new := fun i c t =>
       (Periodic {| interval := i; calls := c; target := t |} : @Scheduler foreign);
     call_scheduler := sched_call;
     call_observer := observer;
     clear_hook := clear_of;
     reinit_speedometer := fun _ (e : @Env foreign) => e;
     backend_run_pre := fun _ b (e : @Env foreign) => (None, b, e);
     backend_run_until := fun _ b (e : @Env foreign) => (None, b, (e + 1)%Z : @Env foreign);
     backend_write_checkpoint := Some checkpoint;
     get_interval := sched_attr interval;
     get_calls := sched_attr calls;
     DryRunBackend := dry_run;
     Speedometer_new := {| cb_id := 0; __name__ := "speedometer"; is_Speedometer := true |};
     target_steps := {| cb_id := 1; __name__ := "target_steps"; is_Speedometer := false |};
     dirname := fun p => p;
     time_time := fun e : @Env foreign => (inject_Z e : @float foreign);
     fzero := (0%Q : @float foreign);
     fsub := Qminus;
     fdiv := Qdiv;
     float_of_int := inject_Z |}.

(** Two writers and the observers that end a run early. *)
Definition writer_a : Callback :=
  {| cb_id := 2; __name__ := "write_a"; is_Speedometer := false |}.
Definition writer_b : Callback :=
  {| cb_id := 3; __name__ := "write_b"; is_Speedometer := false |}.
Definition interrupt : Callback :=
  {| cb_id := 4; __name__ := "interrupt"; is_Speedometer := false |}.
Definition crash : Callback :=
  {| cb_id := 5; __name__ := "crash"; is_Speedometer := false |}.
Definition my_Target : Callback :=
  {| cb_id := 6; __name__ := "my_Target"; is_Speedometer := false |}.
Definition writer_locked : Callback :=
  {| cb_id := 7; __name__ := "write_locked"; is_Speedometer := false |}.

(** A new simulation of ten steps with a checkpoint every five steps, writing
    under [out/]. *)
Definition fresh : @World foreign :=
  @__init__ foreign contracts None (Some "out/traj.xyz") 10 5 false false 0%Z.

(** Two writers registered one after the other. *)
Definition ops_ab : list (@registry_op foreign) :=
  [Add writer_a (AsInt 3) [] []; Add writer_b (AsInt 3) [] []].

(** The same simulation once ten steps have been made. *)
Definition at_ten : @World foreign :=
  {| self := set_steps 10 (self fresh); env := 4%Z; trace := [] |}.

(** A simulation that restarts from step seven, target ten. *)
Definition resumed : @World foreign :=
  let w :=
    @__init__ foreign contracts
      (Some (set_backend_steps 7 dry_run)) (Some "out/traj.xyz") 10 5 false true 0%Z in
  {| self := set_steps 7 (@add foreign contracts writer_a (AsInt 3) [] [] (self w));
     env := env w; trace := trace w |}.

(** A simulation without output path, with one writer. *)
Definition no_output : @World foreign :=
  let w := @__init__ foreign contracts None None 10 5 false false 0%Z in
  {| self := @add foreign contracts writer_a (AsInt 3) [] [] (self w);
     env := env w; trace := trace w |}.

(** A new simulation that is asked to restart, with one writer. *)
Definition restart_at_zero : @World foreign :=
  let w :=
    @__init__ foreign contracts None (Some "out/traj.xyz") 10 5 false true 0%Z in
  {| self := @add foreign contracts writer_a (AsInt 3) [] [] (self w);
     env := env w; trace := trace w |}.

(** [fresh] with the two writers registered, both every three steps. *)
Definition with_writers : @World foreign :=
  (@apply_ops foreign contracts ops_ab fresh).2.

(** The same once [run(10)] has gone through its setup: this is the state
    in which the [try] statement of [run] starts. *)
Definition ready : @World foreign :=
  (@run_prelude foreign contracts (Some 10%Z) with_writers).2.

(** A simulation with an observer that cancels the run at step four, after
    the setup of [run(10)]. *)
Definition ready_to_cancel : @World foreign :=
  (@run_prelude foreign contracts (Some 10%Z)
     {| self := @add foreign contracts interrupt (AsInt 4) [] [] (self fresh);
        env := env fresh; trace := trace fresh |}).2.

(** The same before the setup. *)
Definition cancellable : @World foreign :=
  {| self := @add foreign contracts interrupt (AsInt 4) [] [] (self fresh);
     env := env fresh; trace := trace fresh |}.


(** A simulation that restarts at step ten, which is its target. *)
Definition done_already : @World foreign :=
  let w :=
    @__init__ foreign contracts
      (Some (set_backend_steps 10 dry_run)) (Some "out/traj.xyz") 10 5 false true 0%Z in
  {| self := set_steps 10 (@add foreign contracts writer_a (AsInt 3) [] [] (self w));
     env := env w; trace := trace w |}.

(** [fresh] with a targeter of the user registered without argument. *)
Definition untargeted : @World foreign :=
  {| self := @add foreign contracts my_Target (AsInt 5) [] [] (self fresh);
     env := env fresh; trace := trace fresh |}.

(** [fresh] with the two writers, and between them a writer whose files
    cannot be removed. *)
Definition locked : @World foreign :=
  (@apply_ops foreign contracts
     [Add writer_a (AsInt 3) [] []; Add writer_locked (AsInt 3) [] [];
      Add writer_b (AsInt 3) [] []] fresh).2.

(** A simulation of ten steps without periodic checkpoint, on a full disk. *)
Definition disk_full : @World foreign :=
  @__init__ foreign contracts None (Some "full/traj.xyz") 10 0 false false 0%Z.

(** [fresh] with a writer whose scheduler is a plain function. *)
Definition with_lambda : @World foreign :=
  {| self := @add foreign contracts writer_b (AsInt 3) [] []
               (@add foreign contracts writer_a (AsScheduler (Lambda 3 : @Scheduler foreign)) [] []
                  (self fresh));
     env := env fresh; trace := trace fresh |}.

End Demo.

(** ** [atooms.core.utils.OrderedSet]

    The ordered set of the distinct chemical species met so far: a list
    that [update] extends with the items it does not hold yet and sorts
    again when it has grown.  The items are compared with [==] (a decidable
    equality) and sorted by their order [le]. *)
Module OrderedSet.
Section Methods.
Context {A : Type} `{EqDecision A} (le : relation A) `{!RelDecision le}.

Record t := { items : list A }.

Definition __init__ : t := {| items := [] |}.

Definition __iter__ (self : t) : list A := items self.

(** [l[key]] for an integer [key]: a negative key counts from the end. *)
Definition list_getitem (l : list A) (key : Z) : result A :=
  let n := Z.of_nat (length l) in
  let i := if (key <? 0)%Z then (key + n)%Z else key in
  if (i <? 0)%Z || (n <=? i)%Z then Raise IndexError
  else match l !! Z.to_nat i with
       | Some x => Ret x
       | None => Raise IndexError
       end.

Definition __getitem__ (self : t) (key : Z) : result A :=
  list_getitem (items self) key.

(** [self.items.__setitem__] is only looked up, not called: nothing is
    stored, and the method returns [self.items[key]]. *)
Definition __setitem__ (self : t) (key : Z) (item : A) : result A * t :=
  (list_getitem (items self) key, self).

(** The loop of [update], threading [self.items] and [sort_needed]. *)
Fixpoint update_loop (new its : list A) (sort_needed : bool)
  : list A * bool :=
  match new with
  | [] => (its, sort_needed)
  | item :: new' =>
      if bool_decide (item ∈ its)
      then update_loop new' its sort_needed
      else update_loop new' (its ++ [item]) true
  end.

Definition update (self : t) (new : list A) : t :=
  let '(its, sort_needed) := update_loop new (items self) false in
  {| items := if sort_needed then merge_sort le its else its |}.

(** [l.index(item)]: the first position that holds [item]. *)
Fixpoint list_index (item : A) (l : list A) : option nat :=
  match l with
  | [] => None
  | x :: l' => if decide (x = item) then Some O else S <$> list_index item l'
  end.

(** The [ValueError] of [list.index] is raised again with a message. *)
Definition index (self : t) (item : A) : result nat :=
  match list_index item (items self) with
  | Some i => Ret i
  | None => Raise (OtherError "ValueError")
  end.

(** A set built by successive calls of [update] on a new instance. *)
Definition updates (batches : list (list A)) : t :=
  foldl update __init__ batches.

End Methods.
End OrderedSet.

(** * Properties *)

(** ** Lists of callbacks *)

Section ListFacts.
Implicit Types (c x : Callback) (l h : list Callback).

Lemma filter_all (f : Callback -> bool) l :
  (forall x, x ∈ l -> f x = true) -> List.filter f l = l.
Proof.
  induction l as [|y l IH]; intros Hall; simpl; [done|].
  rewrite (Hall y) by set_solver.
  f_equal. apply IH. intros x Hx. apply Hall. set_solver.
Qed.

Lemma filter_none (f : Callback -> bool) l :
  (forall x, x ∈ l -> f x = false) -> List.filter f l = [].
Proof.
  induction l as [|y l IH]; intros Hall; simpl; [done|].
  rewrite (Hall y) by set_solver.
  apply IH. intros x Hx. apply Hall. set_solver.
Qed.

Lemma filter_swap (f g : Callback -> bool) l :
  List.filter f (List.filter g l) = List.filter g (List.filter f l).
Proof.
  induction l as [|y l IH]; simpl; [done|].
  destruct (g y) eqn:Hg, (f y) eqn:Hf; simpl; rewrite ?Hg, ?Hf, IH; done.
Qed.

Lemma elem_of_list_filter_bool (f : Callback -> bool) l x :
  x ∈ List.filter f l <-> x ∈ l /\ f x = true.
Proof. rewrite !list_elem_of_In. apply List.filter_In. Qed.

Lemma other_than_true c y : other_than c y = true <-> y <> c.
Proof.
  unfold other_than. rewrite negb_true_iff, bool_decide_eq_false. done.
Qed.

Lemma list_remove_absent c l : c ∉ l -> list_remove c l = l.
Proof.
  induction l as [|y l IH]; intros Hc; simpl; [done|].
  destruct (decide (c = y)) as [->|Hne]; [set_solver|].
  f_equal. apply IH. set_solver.
Qed.

Lemma list_remove_filter c l :
  NoDup l -> list_remove c l = List.filter (other_than c) l.
Proof.
  induction 1 as [|y l Hy Hl IH]; simpl; [done|].
  destruct (decide (c = y)) as [->|Hne].
  - replace (other_than y y) with false
      by (symmetry; unfold other_than; rewrite bool_decide_eq_true_2; done).
    symmetry. apply filter_all. intros x Hx.
    apply other_than_true. intros ->. done.
  - replace (other_than c y) with true
      by (symmetry; apply other_than_true; congruence).
    by rewrite IH.
Qed.

Lemma list_remove_guarded c l :
  (if list_in c l then list_remove c l else l) = list_remove c l.
Proof.
  unfold list_in. case_bool_decide; [done|].
  symmetry. by apply list_remove_absent.
Qed.

Lemma NoDup_filter_bool (f : Callback -> bool) l :
  NoDup l -> NoDup (List.filter f l).
Proof. rewrite !NoDup_ListNoDup. apply List.NoDup_filter. Qed.

Lemma NoDup_rev l : NoDup l -> NoDup (rev l).
Proof. rewrite !NoDup_ListNoDup. apply List.NoDup_rev. Qed.

Lemma elem_of_rev x l : x ∈ rev l <-> x ∈ l.
Proof. rewrite !list_elem_of_In. symmetry. apply List.in_rev. Qed.

Lemma list_remove_NoDup c l : NoDup l -> NoDup (list_remove c l).
Proof.
  intros Hl. rewrite list_remove_filter by done. by apply NoDup_filter_bool.
Qed.

Lemma list_remove_not_elem c l : NoDup l -> c ∉ list_remove c l.
Proof.
  intros Hl. rewrite list_remove_filter by done.
  rewrite elem_of_list_filter_bool, other_than_true. tauto.
Qed.

Lemma list_remove_length c l :
  c ∈ l -> S (length (list_remove c l)) = length l.
Proof.
  induction l as [|y l IH]; intros Hc; simpl; [by apply elem_of_nil in Hc|].
  destruct (decide (c = y)) as [->|Hne]; [done|].
  simpl. f_equal. apply IH. apply elem_of_cons in Hc as [?|?]; done.
Qed.


End ListFacts.

(** ** The callback registry *)

Section Registry.
Context `{C : Contracts}.
Implicit Types (c o : Callback) (l hist : list Callback) (s : Simulation)
  (w : World).

Lemma ordinary_not_targeter o : ordinary o = true <-> is_targeter o = false.
Proof. unfold ordinary. apply negb_true_iff. Qed.

Lemma order_of_elem hist c : c ∈ order_of hist <-> c ∈ hist.
Proof.
  unfold order_of.
  rewrite elem_of_app, elem_of_rev, !elem_of_list_filter_bool.
  rewrite ordinary_not_targeter.
  destruct (is_targeter c); intuition congruence.
Qed.

Lemma order_of_NoDup hist : NoDup hist -> NoDup (order_of hist).
Proof.
  intros Hh. unfold order_of. apply NoDup_app. split_and!.
  - by apply NoDup_rev, NoDup_filter_bool.
  - intros x. rewrite elem_of_rev, !elem_of_list_filter_bool.
    rewrite ordinary_not_targeter. intros [_ Hx] [_ Hx']. congruence.
  - by apply NoDup_filter_bool.
Qed.

(** Removing a callback from the order is removing it from the history. *)
Lemma order_of_remove hist c :
  NoDup hist ->
  list_remove c (order_of hist) = order_of (list_remove c hist).
Proof.
  intros Hh.
  rewrite (list_remove_filter c (order_of hist)) by by apply order_of_NoDup.
  rewrite (list_remove_filter c hist) by done.
  unfold order_of.
  rewrite List.filter_app, List.filter_rev.
  by rewrite (filter_swap (other_than c) ordinary),
             (filter_swap (other_than c) is_targeter).
Qed.

(** Registering an ordinary observer puts it first, a targeter last. *)
Lemma order_of_snoc hist c :
  order_of (hist ++ [c]) =
  if ordinary c then c :: order_of hist else order_of hist ++ [c].
Proof.
  unfold order_of, ordinary. rewrite !List.filter_app. simpl.
  destruct (is_targeter c); simpl.
  - by rewrite !app_nil_r, app_assoc.
  - by rewrite List.rev_app_distr, app_nil_r.
Qed.

Lemma add_callback c sch a k s :
  _callback (add c sch a k s) =
  if ordinary c then c :: list_remove c (_callback s)
  else list_remove c (_callback s) ++ [c].
Proof.
  unfold add, ordinary. rewrite list_remove_guarded.
  by destruct (negb (is_targeter c)).
Qed.

Lemma add_cbk_params c sch a k s :
  _cbk_params (add c sch a k s) =
  <[c := {| scheduler := as_scheduler sch; args := a; kwargs := k |}]>
    (_cbk_params s).
Proof. unfold add. by destruct (negb (is_targeter c)). Qed.

Lemma add_order hist c sch a k s :
  NoDup hist ->
  _callback s = order_of hist ->
  _callback (add c sch a k s) = order_of (list_remove c hist ++ [c]).
Proof.
  intros Hh Hs.
  rewrite add_callback, order_of_snoc, Hs, order_of_remove by done. done.
Qed.

Lemma remove_returns c w : (remove c w).1 = Ret tt.
Proof.
  unfold remove, bind, get_self, set_self, emit.
  by destruct (list_in c (_callback (self w))).
Qed.

Lemma remove_callback c w :
  _callback (self (remove c w).2) = list_remove c (_callback (self w)).
Proof.
  unfold remove, bind, get_self, set_self, emit.
  pose proof (list_remove_guarded c (_callback (self w))) as Hg.
  destruct (list_in c (_callback (self w))); simpl; done.
Qed.

Lemma insertion_step_NoDup hist op :
  NoDup hist -> NoDup (insertion_step hist op).
Proof.
  intros Hh. destruct op as [c sch a k|c]; simpl.
  - apply NoDup_app. split_and!.
    + by apply list_remove_NoDup.
    + intros x Hx Hc%list_elem_of_singleton. subst x.
      by apply (list_remove_not_elem c hist).
    + apply NoDup_singleton.
  - by apply list_remove_NoDup.
Qed.

Lemma apply_op_order hist op w :
  NoDup hist ->
  _callback (self w) = order_of hist ->
  (apply_op op w).1 = Ret tt /\
  _callback (self (apply_op op w).2) = order_of (insertion_step hist op).
Proof.
  intros Hh Hw. destruct op as [c sch a k|c]; simpl.
  - split; [done|]. by apply add_order.
  - split; [apply remove_returns|].
    by rewrite remove_callback, Hw, order_of_remove.
Qed.

Lemma apply_ops_order ops : forall hist w,
  NoDup hist ->
  _callback (self w) = order_of hist ->
  (apply_ops ops w).1 = Ret tt /\
  _callback (self (apply_ops ops w).2) = order_of (insertion_order ops hist).
Proof.
  induction ops as [|op ops IH]; intros hist w Hh Hw; simpl; [done|].
  destruct (apply_op_order hist op w Hh Hw) as [Hr Hc].
  unfold bind. destruct (apply_op op w) as [[[]| |] w1]; simpl in *; try done.
  apply IH; [by apply insertion_step_NoDup|done].
Qed.

(** A new instance has at most the speedometer registered. *)
Lemma init_order b p n ci sp r e :
  let s := self (__init__ b p n ci sp r e) in
  NoDup (_callback s) /\ _callback s = order_of (_callback s).
Proof.
  simpl. destruct sp; simpl.
  - rewrite add_callback. simpl. unfold order_of, ordinary.
    destruct (is_targeter Speedometer_new) eqn:Ht; simpl; rewrite Ht; simpl;
      (split; [apply NoDup_singleton|done]).
  - split; [apply NoDup_nil_2|done].
Qed.

(** In an order built by the registry, the ordinary observers come before
    the targeters. *)
Lemma order_of_positions hist (i j : nat) o t :
  order_of hist !! i = Some o -> order_of hist !! j = Some t ->
  is_targeter o = false -> is_targeter t = true ->
  (i < j)%nat.
Proof.
  unfold order_of. intros Hi Hj Ho Ht.
  set (A := rev (List.filter ordinary hist)) in *.
  set (B := List.filter is_targeter hist) in *.
  destruct (decide (i < length A)%nat) as [Hlt|Hge].
  - destruct (decide (j < length A)%nat) as [Hlt'|Hge']; [|lia].
    rewrite lookup_app_l in Hj by done.
    apply list_elem_of_lookup_2 in Hj. unfold A in Hj.
    rewrite elem_of_rev, elem_of_list_filter_bool, ordinary_not_targeter in Hj.
    destruct Hj. congruence.
  - rewrite lookup_app_r in Hi by lia.
    apply list_elem_of_lookup_2 in Hi. unfold B in Hi.
    rewrite elem_of_list_filter_bool in Hi. destruct Hi. congruence.
Qed.

Lemma targeters_order_of hist :
  List.filter is_targeter (order_of hist) = List.filter is_targeter hist.
Proof.
  unfold order_of. rewrite List.filter_app, List.filter_rev.
  rewrite (filter_none is_targeter (List.filter ordinary hist)).
  - simpl. apply filter_all. intros x. rewrite elem_of_list_filter_bool. tauto.
  - intros x. rewrite elem_of_list_filter_bool, ordinary_not_targeter. tauto.
Qed.

Lemma non_targeters_order_of hist :
  List.filter ordinary (order_of hist) = rev (List.filter ordinary hist).
Proof.
  unfold order_of. rewrite List.filter_app, List.filter_rev.
  rewrite (filter_none ordinary (List.filter is_targeter hist)).
  - rewrite app_nil_r. f_equal. apply filter_all.
    intros x. rewrite elem_of_list_filter_bool. tauto.
  - intros x. rewrite elem_of_list_filter_bool. unfold ordinary.
    intros [_ ->]. done.
Qed.

(** C1 (as amended).  After any sequence of [add] and [remove] on a new
    instance, both calls return, every ordinary observer is notified before
    every targeter, the targeters are in the order of their (latest)
    insertion, and the ordinary observers are in the reverse of that order:
    [add] inserts an ordinary observer at the front. *)
Theorem notification_order_after_ops b p n ci sp r e ops :
  let w0 := __init__ b p n ci sp r e in
  let w := (apply_ops ops w0).2 in
  let hist := insertion_order ops (_callback (self w0)) in
  (apply_ops ops w0).1 = Ret tt /\
  (forall (i j : nat) o t,
     _callback (self w) !! i = Some o -> _callback (self w) !! j = Some t ->
     is_targeter o = false -> is_targeter t = true -> (i < j)%nat) /\
  _targeters (self w) = List.filter is_targeter hist /\
  _non_targeters (self w) = rev (List.filter ordinary hist).
Proof.
  intros w0 w hist.
  destruct (init_order b p n ci sp r e) as [Hnd Hord].
  destruct (apply_ops_order ops (_callback (self w0)) w0 Hnd Hord) as [Hr Hc].
  fold w hist in Hc. split_and!.
  - done.
  - rewrite Hc. apply order_of_positions.
  - unfold _targeters. rewrite Hc. apply targeters_order_of.
  - unfold _non_targeters. rewrite Hc. apply non_targeters_order_of.
Qed.

(** C7.  Registering again a callback that is registered removes the earlier
    registration from the notification order and inserts the callback anew:
    it occurs once, the order keeps its length, the stored scheduler and
    arguments are those of this call, and the callback is first (ordinary)
    or last (targeter) whatever its former position. *)
Theorem add_again_replaces b p n ci sp r e ops c sch a k :
  let s := self (apply_ops ops (__init__ b p n ci sp r e)).2 in
  let s' := add c sch a k s in
  c ∈ _callback s ->
  _callback s' =
    (if is_targeter c then list_remove c (_callback s) ++ [c]
     else c :: list_remove c (_callback s)) /\
  count_occ Callback_eq_dec (_callback s') c = 1%nat /\
  length (_callback s') = length (_callback s) /\
  _cbk_params s' !! c =
    Some {| scheduler := as_scheduler sch; args := a; kwargs := k |} /\
  (if is_targeter c then last (_callback s') = Some c
   else head (_callback s') = Some c).
Proof.
  intros s s' Hin.
  destruct (init_order b p n ci sp r e) as [Hnd Hord].
  destruct (apply_ops_order ops _ _ Hnd Hord) as [_ Hc]. fold s in Hc.
  assert (NoDup (insertion_order ops
            (_callback (self (__init__ b p n ci sp r e))))) as Hh.
  { clear -Hnd. revert Hnd.
    generalize (_callback (self (__init__ b p n ci sp r e))).
    induction ops as [|op ops IH]; intros hist Hh; simpl; [done|].
    apply IH. by apply insertion_step_NoDup. }
  assert (NoDup (_callback s)) as Hs by (rewrite Hc; by apply order_of_NoDup).
  assert (_callback s' =
    (if is_targeter c then list_remove c (_callback s) ++ [c]
     else c :: list_remove c (_callback s))) as Hs'.
  { unfold s'. rewrite add_callback. unfold ordinary.
    by destruct (is_targeter c). }
  assert (NoDup (_callback s')) as Hnd'.
  { rewrite Hs'. pose proof (list_remove_NoDup c _ Hs) as H1.
    pose proof (list_remove_not_elem c _ Hs) as H2.
    destruct (is_targeter c).
    - apply NoDup_app. split_and!; [done| |apply NoDup_singleton].
      intros x Hx Hx'%list_elem_of_singleton. by subst x.
    - by apply NoDup_cons. }
  split_and!.
  - done.
  - apply NoDup_ListNoDup in Hnd'.
    apply (proj1 (List.NoDup_count_occ' Callback_eq_dec _) Hnd').
    rewrite Hs'. destruct (is_targeter c).
    + apply List.in_or_app. right. by left.
    + by left.
  - rewrite Hs'. pose proof (list_remove_length c _ Hin) as Hl.
    destruct (is_targeter c); [rewrite length_app|]; simpl; lia.
  - unfold s'. rewrite add_cbk_params. apply lookup_insert_eq.
  - rewrite Hs'. destruct (is_targeter c); [apply last_snoc|done].
Qed.

End Registry.

(** ** Frame rules of the monad *)

Section Frames.
Context `{C : Contracts}.
Context {X : Type} (f : World -> X).

Lemma keeps_ret {A} (a : A) : keeps f (ret a).
Proof. done. Qed.

Lemma keeps_raise {A} (e : exn) : keeps f (raise (A := A) e).
Proof. done. Qed.

Lemma keeps_get_self : keeps f get_self.
Proof. done. Qed.

Lemma keeps_get_env : keeps f get_env.
Proof. done. Qed.

Lemma keeps_out_of_fuel {A} : keeps f (fun w => (OutOfFuel (A := A), w)).
Proof. done. Qed.

Lemma keeps_bind {A B} (m : M A) (k : A -> M B) :
  keeps f m -> (forall a, keeps f (k a)) -> keeps f (bind m k).
Proof.
  intros Hm Hk w. unfold bind. specialize (Hm w).
  destruct (m w) as [[a|e|] w1]; simpl in *; [|done|done].
  by rewrite Hk.
Qed.

Lemma keeps_try_except {A} (m : M A) (h : exn -> option (M A)) :
  keeps f m -> (forall e k, h e = Some k -> keeps f k) ->
  keeps f (try_except m h).
Proof.
  intros Hm Hh w. unfold try_except. specialize (Hm w).
  destruct (m w) as [[a|e|] w1]; simpl in *; [done| |done].
  destruct (h e) as [k|] eqn:Hk; [|done].
  by rewrite (Hh e k Hk).
Qed.

Lemma keeps_try_finally {A} (m : M A) (fin : M unit) :
  keeps f m -> keeps f fin -> keeps f (try_finally m fin).
Proof.
  intros Hm Hf w. unfold try_finally. specialize (Hm w).
  destruct (m w) as [[a|e|] w1]; simpl in *; [| |done];
    specialize (Hf w1); destruct (fin w1) as [[[]|e'|] w2]; simpl in *;
    congruence.
Qed.

Lemma keeps_on_AttributeError {A} (h : M A) e k :
  keeps f h -> on_AttributeError h e = Some k -> keeps f k.
Proof. intros Hh. destruct e; simpl; intros [= <-] || discriminate. done. Qed.

Lemma keeps_if {A} (b : bool) (m1 m2 : M A) :
  keeps f m1 -> keeps f m2 -> keeps f (if b then m1 else m2).
Proof. by destruct b. Qed.

End Frames.

Ltac frame_step :=
  match goal with
  | |- keeps _ (bind _ _) => apply keeps_bind; [|intro]
  | |- keeps _ (ret _) => apply keeps_ret
  | |- keeps _ (raise _) => apply keeps_raise
  | |- keeps _ get_self => apply keeps_get_self
  | |- keeps _ get_env => apply keeps_get_env
  | |- keeps _ (try_except _ _) => apply keeps_try_except; [|intros ? ? ?]
  | |- keeps _ (try_finally _ _) => apply keeps_try_finally
  | H : on_AttributeError _ _ = Some ?k |- keeps _ ?k =>
      eapply keeps_on_AttributeError; [|exact H]
  | |- keeps _ (match ?x with _ => _ end) => destruct x
  end.

(** ** What the methods leave unchanged *)

Section SelfFrames.
Context `{C : Contracts}.

(** Actions that log or call out do not touch the instance. *)
Lemma emit_keeps_self ev : keeps self (emit ev).
Proof. done. Qed.

Lemma foreign_keeps_self h : keeps self (foreign h).
Proof. intros w. unfold foreign. by destruct (h (self w) (env w)). Qed.

Lemma call_keeps_self o : keeps self (call o).
Proof.
  unfold call.
  repeat first [frame_step | apply emit_keeps_self | apply foreign_keeps_self].
Qed.

Lemma notify_keeps_self observers : keeps self (notify observers).
Proof.
  induction observers as [|o l IH]; simpl;
    repeat first [frame_step | apply call_keeps_self | apply IH].
Qed.

Lemma clear_keeps_self cbk : keeps self (clear cbk).
Proof.
  unfold clear.
  repeat first [frame_step | apply emit_keeps_self | apply foreign_keeps_self].
Qed.

Lemma clear_all_keeps_self cbks : keeps self (clear_all cbks).
Proof.
  induction cbks as [|o l IH]; simpl;
    repeat first [frame_step | apply clear_keeps_self | apply IH].
Qed.

Lemma report_header_keeps_self : keeps self report_header.
Proof.
  unfold report_header. repeat first [frame_step | apply emit_keeps_self].
Qed.

Lemma _report_observers_from_keeps_self fs :
  keeps self (_report_observers_from fs).
Proof.
  induction fs as [|o l IH]; simpl;
    repeat first [frame_step | apply emit_keeps_self | apply IH].
Qed.

Lemma report_keeps_self : keeps self report.
Proof.
  unfold report, _report, _report_observers.
  repeat first [frame_step | apply _report_observers_from_keeps_self].
Qed.

Lemma truediv_keeps_self x d : keeps self (truediv x d).
Proof. unfold truediv. repeat frame_step. Qed.

Lemma wall_time_per_step_particle_keeps_self :
  keeps self wall_time_per_step_particle.
Proof.
  unfold wall_time_per_step_particle, wall_time_per_step, elapsed_wall_time,
    len_system_particle.
  repeat first [frame_step | apply truediv_keeps_self].
Qed.

Lemma _report_end_keeps_self : keeps self _report_end.
Proof.
  unfold _report_end, elapsed_wall_time.
  repeat first [frame_step | apply emit_keeps_self
               | apply wall_time_per_step_particle_keeps_self].
Qed.

Lemma reinit_speedometers_keeps_self l : keeps self (reinit_speedometers l).
Proof.
  induction l as [|o l IH]; simpl; repeat first [frame_step | apply IH].
  done.
Qed.

(** Calls to the outside log nothing. *)
Lemma foreign_keeps_trace {X} (g : list event -> X) h :
  keeps (fun w => g (trace w)) (foreign h).
Proof. intros w. unfold foreign. by destruct (h (self w) (env w)). Qed.

Lemma foreign_backend_keeps_trace {X} (g : list event -> X) h :
  keeps (fun w => g (trace w)) (foreign_backend h).
Proof.
  intros w. unfold foreign_backend.
  by destruct (h (backend (self w)) (env w)) as [[o b] e].
Qed.

Lemma keeps_self_on_self {A X} (proj : Simulation -> X) (m : M A) :
  keeps self m -> keeps (on_self proj) m.
Proof. intros Hm w. unfold on_self. by rewrite Hm. Qed.

End SelfFrames.

Section ConfigurationFrames.
Context `{C : Contracts}.
Context {X : Type} (proj : Simulation -> X) (Hproj : configuration proj).

Lemma foreign_backend_keeps h : keeps (on_self proj) (foreign_backend h).
Proof.
  intros w. unfold foreign_backend, on_self.
  destruct (h (backend (self w)) (env w)) as [[o b] e]. simpl.
  apply Hproj.
Qed.

Lemma set_backend_steps_keeps n :
  keeps (on_self proj)
    (set_self (fun s => set_backend (set_backend_steps n (backend s)) s)).
Proof. intros w. unfold on_self. simpl. apply Hproj. Qed.

Lemma set_backend_output_path_keeps p :
  keeps (on_self proj)
    (set_self (fun s => set_backend (set_backend_output_path p (backend s)) s)).
Proof. intros w. unfold on_self. simpl. apply Hproj. Qed.

Lemma set_steps_keeps n : keeps (on_self proj) (set_self (set_steps n)).
Proof. intros w. unfold on_self. simpl. apply Hproj. Qed.

Lemma set_initial_steps_keeps n :
  keeps (on_self proj) (set_self (set_initial_steps n)).
Proof. intros w. unfold on_self. simpl. apply Hproj. Qed.

Lemma set_start_time_keeps t :
  keeps (on_self proj) (set_self (set_start_time t)).
Proof. intros w. unfold on_self. simpl. apply Hproj. Qed.

Ltac frame_known :=
  match goal with
  | |- keeps _ (foreign_backend _) => apply foreign_backend_keeps
  | |- keeps _ (set_self (set_steps _)) => apply set_steps_keeps
  | |- keeps _ (set_self (set_initial_steps _)) => apply set_initial_steps_keeps
  | |- keeps _ (set_self (set_start_time _)) => apply set_start_time_keeps
  | |- keeps _ (set_self (fun s => set_backend (set_backend_steps _ _) _)) =>
      apply set_backend_steps_keeps
  | |- keeps _ (set_self (fun s => set_backend (set_backend_output_path _ _) _)) =>
      apply set_backend_output_path_keeps
  | |- keeps _ (emit _) => apply keeps_self_on_self, emit_keeps_self
  | |- keeps _ (notify _) => apply keeps_self_on_self, notify_keeps_self
  | |- keeps _ (clear_all _) => apply keeps_self_on_self, clear_all_keeps_self
  | |- keeps _ report_header => apply keeps_self_on_self, report_header_keeps_self
  | |- keeps _ report => apply keeps_self_on_self, report_keeps_self
  | |- keeps _ _report_end => apply keeps_self_on_self, _report_end_keeps_self
  | |- keeps _ (reinit_speedometers _) =>
      apply keeps_self_on_self, reinit_speedometers_keeps_self
  end.

Ltac frame := repeat first [frame_known | frame_step].

Lemma write_checkpoint_keeps : keeps (on_self proj) write_checkpoint.
Proof. unfold write_checkpoint. frame. Qed.

Lemma run_pre_keeps : keeps (on_self proj) run_pre.
Proof. unfold run_pre. frame. Qed.

Lemma run_until_keeps n : keeps (on_self proj) (run_until n).
Proof. unfold run_until. frame. Qed.

Ltac frame_loop :=
  repeat first
    [ match goal with
      | |- keeps _ (run_until _) => apply run_until_keeps
      | |- keeps _ write_checkpoint => apply write_checkpoint_keeps
      end
    | frame_known | frame_step ].

Lemma loop_body_keeps : keeps (on_self proj) loop_body.
Proof. unfold loop_body. frame_loop. Qed.

Lemma main_loop_keeps fuel : keeps (on_self proj) (main_loop fuel).
Proof.
  induction fuel as [|fuel IH]; simpl; [done|].
  apply keeps_bind; [apply loop_body_keeps|intros _; apply IH].
Qed.

Lemma initial_notifications_keeps : keeps (on_self proj) initial_notifications.
Proof. unfold initial_notifications. frame. Qed.

Lemma run_body_keeps fuel : keeps (on_self proj) (run_body fuel).
Proof.
  unfold run_body.
  apply keeps_bind; [apply initial_notifications_keeps|intros _].
  apply keeps_bind; [frame|intros _].
  apply keeps_bind; [frame|intros _].
  apply main_loop_keeps.
Qed.

Lemma run_handlers_keep e k :
  run_handlers e = Some k -> keeps (on_self proj) k.
Proof.
  destruct e; simpl; intros [= <-]; frame_loop.
  match goal with H : Some _ = Some _ |- _ => injection H as <- end.
  frame.
Qed.

Lemma run_protected_keeps fuel : keeps (on_self proj) (run_protected fuel).
Proof.
  unfold run_protected.
  apply keeps_try_finally; [|frame].
  apply keeps_try_except; [apply run_body_keeps|apply run_handlers_keep].
Qed.

End ConfigurationFrames.

(** ** The target of a resumed run *)

Section Resume.
Context `{C : Contracts}.

Lemma configuration_max_steps : configuration max_steps.
Proof. by repeat split. Qed.

Lemma add_max_steps c sch a k s : max_steps (add c sch a k s) = max_steps s.
Proof. unfold add. by destruct (negb (is_targeter c)). Qed.

(** What follows the reset in [run] never assigns [max_steps]. *)
Lemma run_setup_keeps_max_steps : keeps (on_self max_steps) run_setup.
Proof.
  unfold run_setup.
  apply keeps_bind; [done|intros s].
  apply keeps_bind; [intros w; apply add_max_steps|intros _].
  apply keeps_bind;
    [apply keeps_self_on_self, report_header_keeps_self|intros _].
  apply keeps_bind; [apply run_pre_keeps, configuration_max_steps|intros _].
  apply keeps_bind; [done|intros s1].
  apply keeps_bind;
    [apply set_initial_steps_keeps, configuration_max_steps|intros _].
  apply keeps_bind; [apply keeps_self_on_self, report_keeps_self|intros _].
  apply keeps_bind; [done|intros s2].
  apply keeps_self_on_self, reinit_speedometers_keeps_self.
Qed.

Lemma configuration_registry : configuration registry.
Proof. by repeat split. Qed.

Lemma configuration_targeter : configuration _targeter_steps.
Proof. by repeat split. Qed.

(** What follows the registration of the step targeter in the setup of
    [run] leaves every part of the configuration as it is. *)
Lemma run_setup_tail_keeps {X} (proj : Simulation -> X) :
  configuration proj ->
  keeps (on_self proj)
    (report_header;;
     run_pre;;
     s <- get_self;;
     set_self (set_initial_steps (steps s));;
     report;;
     s <- get_self;;
     reinit_speedometers (_speedometers s)).
Proof.
  intros Hc.
  apply keeps_bind;
    [apply keeps_self_on_self, report_header_keeps_self|intros _].
  apply keeps_bind; [by apply run_pre_keeps|intros _].
  apply keeps_bind; [done|intros s1].
  apply keeps_bind; [by apply set_initial_steps_keeps|intros _].
  apply keeps_bind; [apply keeps_self_on_self, report_keeps_self|intros _].
  apply keeps_bind; [done|intros s2].
  apply keeps_self_on_self, reinit_speedometers_keeps_self.
Qed.

Lemma run_setup_configuration {X} (proj : Simulation -> X) w :
  configuration proj ->
  proj (self (run_setup w).2) =
  proj (add (_targeter_steps (self w))
            (AsScheduler (Scheduler_new (Some (max_steps (self w))) None None))
            [VInt (max_steps (self w))] [] (self w)).
Proof.
  intros Hc. unfold run_setup.
  unfold bind at 1. unfold get_self at 1.
  unfold bind at 1. unfold set_self at 1.
  exact (run_setup_tail_keeps proj Hc _).
Qed.

(** On a resumed run the reset does nothing. *)
Lemma run_reset_on_resume N w :
  restart (self w) = true -> steps (self w) <> 0%Z ->
  run_reset N w = (Ret tt, w).
Proof.
  intros Hr Hs. unfold run_reset, bind, get_self. rewrite Hr.
  apply Z.eqb_neq in Hs. by rewrite Hs.
Qed.

(** C9.  A call [run(steps=N)] on a simulation that restarts and has
    already made steps leaves [max_steps] as it was, whatever [N] (also
    when it is omitted), however the run ends and however long it lasts. *)
Theorem run_keeps_max_steps_on_resume fuel N w :
  restart (self w) = true ->
  (0 < steps (self w))%Z ->
  max_steps (self (run fuel N w).2) = max_steps (self w).
Proof.
  intros Hr Hs.
  assert (keeps (on_self max_steps) (run_setup;; run_protected fuel)) as Hk.
  { apply keeps_bind; [apply run_setup_keeps_max_steps|intros _].
    apply run_protected_keeps, configuration_max_steps. }
  specialize (Hk w). unfold on_self in Hk. rewrite <- Hk.
  do 3 f_equal.
  unfold run, run_prelude, bind.
  rewrite run_reset_on_resume by (done || lia). done.
Qed.

End Resume.

(** ** Timing *)

Section Timing.
Context `{C : Contracts}.

(** C3 (as amended).  Without a physical system,
    [wall_time_per_step_particle] returns 0.0 exactly when steps have been
    made since the start of the run (and their number converts to a float);
    when none has been made, the division of [wall_time_per_step] raises
    [ZeroDivisionError] before the system is looked at. *)
Theorem wall_time_per_step_particle_without_system w :
  system (backend (self w)) = None ->
  wall_time_per_step_particle w =
    let d := (steps (self w) - initial_steps (self w))%Z in
    if int_too_large d then (Raise OverflowError, w)
    else if (d =? 0)%Z then (Raise ZeroDivisionError, w)
    else (Ret fzero, w).
Proof.
  intros Hsys.
  unfold wall_time_per_step_particle, wall_time_per_step, elapsed_wall_time,
    len_system_particle, truediv, try_except, bind, get_self, get_env, ret,
    raise.
  cbv zeta.
  destruct (int_too_large _); [done|].
  destruct (_ =? 0)%Z; [done|].
  by rewrite Hsys.
Qed.

End Timing.

(** ** Notifications *)

Section Notify.
Context `{C : Contracts}.
Implicit Types (w : World) (o : Callback) (l : list Callback).

Lemma calls_of_app tr1 tr2 : calls_of (tr1 ++ tr2) = calls_of tr1 ++ calls_of tr2.
Proof. apply omap_app. Qed.

Lemma clears_of_app tr1 tr2 :
  clears_of (tr1 ++ tr2) = clears_of tr1 ++ clears_of tr2.
Proof. apply omap_app. Qed.

Lemma checkpoints_of_app tr1 tr2 :
  checkpoints_of (tr1 ++ tr2) = checkpoints_of tr1 ++ checkpoints_of tr2.
Proof. apply omap_app. Qed.

Lemma calls_of_notify_events l n : calls_of (notify_events l n) = l.
Proof. induction l as [|o l IH]; simpl; [done|]. by f_equal. Qed.

Lemma clears_of_notify_events l n : clears_of (notify_events l n) = [].
Proof. induction l as [|o l IH]; simpl; done. Qed.


(** One call: the instance is not touched, the trace grows by the debug line
    and, if the parameters are found, by the call. *)
Lemma call_spec o w :
  let '(r, w') := call o w in
  self w' = self w /\ r <> OutOfFuel /\
  exists evs,
    trace w' = trace w ++ evs /\
    (evs = [Log DEBUG "notify %s at step %d"] /\ r = Raise KeyError \/
     evs = [Log DEBUG "notify %s at step %d"; Call o (steps (self w))]).
Proof.
  unfold call, bind, get_self, emit, raise, foreign. simpl.
  destruct (_cbk_params (self w) !! o) as [p|]; simpl.
  - destruct (call_observer o (self w) (args p) (kwargs p) (env w))
      as [[e|] env']; simpl;
      (split_and!; [done|done|]);
      eexists; (split; [by rewrite <- app_assoc|by right]).
  - split_and!; [done|done|]. eexists. split; [done|by left].
Qed.

(** [notify]: the instance is not touched; the observers called are the
    first ones of the list, all of them when [notify] returns, and nothing
    else than calls and debug lines is done. *)
Lemma notify_spec l : forall w,
  let '(r, w') := notify l w in
  self w' = self w /\ r <> OutOfFuel /\
  exists evs,
    trace w' = trace w ++ evs /\
    calls_of evs `prefix_of` l /\
    clears_of evs = [] /\ checkpoints_of evs = [] /\
    (r = Ret tt -> evs = notify_events l (steps (self w))).
Proof.
  induction l as [|o l IH]; intros w; simpl.
  - split_and!; [done|done|]. exists []. rewrite app_nil_r.
    split_and!; done.
  - unfold bind. pose proof (call_spec o w) as Hc.
    destruct (call o w) as [[[]|e|] w1]; destruct Hc as (Hs & Hr & evs & Ht & Hev).
    + destruct Hev as [[_ ?]| ->]; [done|].
      specialize (IH w1). destruct (notify l w1) as [r w2].
      destruct IH as (Hs2 & Hr2 & evs2 & Ht2 & Hp & Hcl & Hck & Hret).
      split_and!; [congruence|done|].
      eexists. split; [rewrite Ht2, Ht, <- app_assoc; reflexivity|].
      rewrite calls_of_app, clears_of_app, checkpoints_of_app, Hcl, Hck.
      simpl. split_and!; [by apply prefix_cons|done|done|].
      intros Hr'. rewrite (Hret Hr'), Hs. done.
    + split_and!; [done|done|]. exists evs. split; [done|].
      destruct Hev as [[-> _]| ->]; simpl;
        (split_and!; [|done|done|done]).
      * apply prefix_nil.
      * apply prefix_cons, prefix_nil.
    + done.
Qed.









End Notify.

(** ** Restart handling *)

Section Restart.
Context `{C : Contracts}.
Implicit Types (w : World) (cbk : Callback) (l : list Callback).

Lemma clears_of_Clear l : clears_of (Clear <$> l) = l.
Proof. induction l as [|c l IH]; simpl; [done|]. by f_equal. Qed.

(** One reset hook: called when the observer has one; its
    [AttributeError] is swallowed like the one of a missing hook. *)
Lemma clear_spec cbk w :
  let '(r, w') := clear cbk w in
  self w' = self w /\ r <> OutOfFuel /\
  trace w' = trace w ++ (if has_clear cbk then [Clear cbk] else []).
Proof.
  unfold clear, has_clear, try_except, bind, emit, raise, foreign, ret. simpl.
  destruct (clear_hook cbk) as [h|]; simpl.
  - destruct (h (self w) (env w)) as [[e|] env']; simpl; [|done].
    destruct e; simpl; done.
  - by rewrite app_nil_r.
Qed.

Lemma clear_all_spec l : forall w,
  let '(r, w') := clear_all l w in
  self w' = self w /\ r <> OutOfFuel /\
  exists cs,
    trace w' = trace w ++ (Clear <$> cs) /\
    cs `prefix_of` List.filter has_clear l /\
    (r = Ret tt -> cs = List.filter has_clear l).
Proof.
  induction l as [|c l IH]; intros w; simpl.
  - split_and!; [done|done|]. exists []. by rewrite app_nil_r.
  - unfold bind. pose proof (clear_spec c w) as Hc.
    destruct (clear c w) as [[[]|e|] w1]; destruct Hc as (Hs & Hr & Ht);
      [| |done].
    + specialize (IH w1). destruct (clear_all l w1) as [r w2].
      destruct IH as (Hs2 & Hr2 & cs & Ht2 & Hp & Hret).
      split_and!; [congruence|done|].
      rewrite Ht2, Ht, <- app_assoc.
      destruct (has_clear c); simpl.
      * exists (c :: cs). split_and!; [done|by apply prefix_cons|].
        intros Hr'. by rewrite (Hret Hr').
      * by exists cs.
    + split_and!; [done|done|]. rewrite Ht.
      destruct (has_clear c); simpl.
      * exists [c]. split_and!; [done|apply prefix_cons, prefix_nil|done].
      * exists []. split_and!; [done|apply prefix_nil|done].
Qed.

(** The end of [run_pre], lines 231-237, from any state. *)
Lemma run_pre_tail_spec (r0 : bool) w1 :
  restart (self w1) = r0 ->
  let hook := backend_run_pre r0 (backend (self w1)) (env w1) in
  let '(r, w') :=
    (emit (BackendRunPre r0);;
     foreign_backend (backend_run_pre r0);;
     s0 <- get_self;;
     (if restart s0
      then set_self (set_steps (backend_steps (backend s0)))
      else ret tt);;
     emit Barrier) w1 in
  r <> OutOfFuel /\
  backend (self w') = hook.1.2 /\
  _callback (self w') = _callback (self w1) /\
  exists tl,
    trace w' = trace w1 ++ tl /\
    (tl = [BackendRunPre r0] \/ tl = [BackendRunPre r0; Barrier]) /\
    (r = Ret tt ->
     tl = [BackendRunPre r0; Barrier] /\
     (r0 = true -> steps (self w') = backend_steps (backend (self w'))) /\
     (r0 = false -> steps (self w') = steps (self w1))).
Proof.
  intros Hr hook. subst hook.
  unfold bind, emit, foreign_backend, get_self, set_self, ret. simpl.
  destruct (backend_run_pre r0 (backend (self w1)) (env w1))
    as [[[e|] b'] env']; simpl.
  - split_and!; [done|done|done|]. eexists. split; [done|].
    split; [by left|done].
  - rewrite Hr. destruct r0; simpl;
      (split_and!; [done|done|done|]); eexists;
      (split; [by rewrite <- app_assoc|]);
      (split; [by right|]); intros _; split_and!; done.
Qed.

Ltac tail_cases w1 :=
  match goal with
  | |- context [bind (emit (BackendRunPre ?b)) ?k w1] =>
      destruct (bind (emit (BackendRunPre b)) k w1) as [r w']
  end.

(** What [run_pre] does, in full. *)
Lemma run_pre_spec w :
  let s := self w in
  let hook := backend_run_pre (restart s) (backend s) (env w) in
  let '(r, w') := run_pre w in
  r <> OutOfFuel /\
  _callback (self w') = _callback s /\
  exists cs tl,
    trace w' =
      trace w ++
      match output_path s with
      | Some p => [SetBackendOutputPath (Some p)]
      | None => []
      end ++ (Clear <$> cs) ++ tl /\
    cs `prefix_of` to_clear s /\
    (tl = [] \/ tl = [BackendRunPre (restart s)] \/
     tl = [BackendRunPre (restart s); Barrier]) /\
    (r = Ret tt ->
     cs = to_clear s /\ tl = [BackendRunPre (restart s); Barrier] /\
     (restart s = true ->
      steps (self w') = backend_steps (backend (self w'))) /\
     (restart s = false -> steps (self w') = steps s)) /\
    (output_path s = None ->
     cs = [] /\ tl <> [] /\ backend (self w') = hook.1.2).
Proof.
  intros s hook.
  unfold run_pre, to_clear. unfold bind at 1. unfold get_env at 1.
  unfold bind at 1. unfold set_self at 1.
  unfold bind at 1. unfold get_self at 1. simpl self.
  change (output_path (set_start_time (time_time (env w)) (self w)))
    with (output_path s).
  change (restart (set_start_time (time_time (env w)) (self w)))
    with (restart s).
  change (_callback (set_start_time (time_time (env w)) (self w)))
    with (_callback s).
  unfold bind at 1.
  destruct (output_path s) as [p|] eqn:Hp.
  - unfold bind at 1. unfold emit at 1.
    unfold bind at 1. unfold set_self at 1. simpl self. simpl env. simpl trace.
    set (w1 := {| self := _; env := env w; trace := trace w ++ _ |}).
    destruct (restart s) eqn:Hrs; cbv beta iota zeta delta [negb].
    + unfold ret at 1. cbv beta iota.
      pose proof (run_pre_tail_spec true w1 Hrs) as Htail.
      cbv zeta in Htail. revert Htail. tail_cases w1.
      intros (Hr & _ & Hc & tl & Ht & Htl & Hret).
      split_and!; [done|done|]. exists [], tl. simpl.
      split_and!;
        [rewrite Ht; unfold w1; simpl trace; by rewrite <- app_assoc
        |done|tauto| |done].
      intros Hr'. destruct (Hret Hr') as (-> & H1 & H2). done.
    + pose proof (clear_all_spec (_callback s) w1) as Hcl.
      destruct (clear_all (_callback s) w1) as [[[]|e|] w2];
        destruct Hcl as (Hs2 & Hr2 & cs & Ht2 & Hpre & Hcs); [| |done].
      * assert (restart (self w2) = false) as Hr' by by rewrite Hs2.
        pose proof (run_pre_tail_spec false w2 Hr') as Htail.
        cbv zeta in Htail. revert Htail. tail_cases w2.
        intros (Hr & _ & Hc & tl & Ht & Htl & Hret).
        split_and!; [done|by rewrite Hc, Hs2|]. exists cs, tl.
        split_and!; [|done|tauto| |done].
        -- rewrite Ht, Ht2. unfold w1. simpl trace.
           by rewrite <- !app_assoc.
        -- intros Hr''. destruct (Hret Hr'') as (-> & H1 & H2).
           split_and!; [by apply Hcs|done|done|].
           intros _. rewrite (H2 eq_refl), Hs2. done.
      * split_and!; [done|by rewrite Hs2|]. exists cs, [].
        split_and!; [|done|tauto|done|done].
        rewrite Ht2. unfold w1. simpl trace.
        by rewrite app_nil_r, <- !app_assoc.
  - unfold ret at 1. cbv beta iota.
    set (w1 := {| self := set_start_time _ _; env := env w; trace := trace w |}).
    pose proof (run_pre_tail_spec (restart s) w1 eq_refl) as Htail.
    cbv zeta in Htail. revert Htail. tail_cases w1.
    intros (Hr & Hb & Hc & tl & Ht & Htl & Hret).
    split_and!; [done|done|]. exists [], tl. simpl.
    split_and!; [done|done|tauto| |].
    + intros Hr'. destruct (Hret Hr') as (-> & H1 & H2). done.
    + intros _. split_and!; [done| |done].
      destruct Htl as [-> | ->]; done.
Qed.

(** C10.  Without output path, [run_pre] calls no reset hook and does not
    assign [backend.output_path], restart or not: all it does to the outside
    is to call [backend.run_pre] (and the barrier when that returns), and the
    backend it leaves is the one that [backend.run_pre] made of the backend
    as it was. *)
Theorem run_pre_without_output_path w :
  output_path (self w) = None ->
  let s := self w in
  let hook := backend_run_pre (restart s) (backend s) (env w) in
  let w' := (run_pre w).2 in
  exists new,
    trace w' = trace w ++ new /\
    (forall cbk, Clear cbk ∉ new) /\
    (forall p, SetBackendOutputPath p ∉ new) /\
    (new = [BackendRunPre (restart s)] \/
     new = [BackendRunPre (restart s); Barrier]) /\
    backend (self w') = hook.1.2.
Proof.
  intros Hp s hook w'. subst w'.
  pose proof (run_pre_spec w) as H. fold s hook in H.
  destruct (run_pre w) as [r w']. simpl.
  destruct H as (_ & _ & cs & tl & Ht & _ & Htl & _ & Hnone).
  destruct (Hnone Hp) as (-> & Hne & Hb).
  fold s in Hp. rewrite Hp in Ht. simpl in Ht.
  exists tl. split; [done|].
  assert (tl = [BackendRunPre (restart s)] \/
          tl = [BackendRunPre (restart s); Barrier]) as Htl'
    by (destruct Htl as [->|Htl]; [done|exact Htl]).
  split_and!; [| |done|done].
  - intros cbk Hin.
    destruct Htl' as [-> | ->]; rewrite ?elem_of_cons, elem_of_nil in Hin;
      intuition discriminate.
  - intros p Hin.
    destruct Htl' as [-> | ->]; rewrite ?elem_of_cons, elem_of_nil in Hin;
      intuition discriminate.
Qed.

(** Reports and (re)registrations call no reset hook. *)
Lemma emit_Log_quiet lvl msg : keeps self_and_clears (emit (Log lvl msg)).
Proof.
  intros w. unfold self_and_clears. simpl.
  by rewrite clears_of_app, app_nil_r.
Qed.

Ltac quiet :=
  repeat first
    [ match goal with
      | |- keeps _ (emit (Log _ _)) => apply emit_Log_quiet
      end
    | frame_step ].

Lemma report_header_quiet : keeps self_and_clears report_header.
Proof. unfold report_header. quiet. Qed.

Lemma report_quiet : keeps self_and_clears report.
Proof.
  unfold report, _report, _report_observers.
  apply keeps_bind; [done|intros _].
  apply keeps_bind; [done|intros s].
  induction (_callback s) as [|f fs IH]; simpl; quiet. apply IH.
Qed.

Lemma reinit_speedometers_quiet l :
  keeps self_and_clears (reinit_speedometers l).
Proof. induction l as [|o l IH]; simpl; quiet; [done|apply IH]. Qed.

(** The reset of the counters, lines 253-257. *)
Lemma run_reset_spec steps_arg w :
  let s := self w in
  exists w1,
    run_reset steps_arg w = (Ret tt, w1) /\
    trace w1 = trace w /\ env w1 = env w /\
    restart (self w1) = restart s /\
    output_path (self w1) = output_path s /\
    _callback (self w1) = _callback s /\
    (restart s = false \/ steps s = 0%Z ->
     steps (self w1) = 0%Z /\ backend_steps (backend (self w1)) = 0%Z) /\
    (restart s = true -> steps s <> 0%Z -> w1 = w).
Proof.
  intros s. unfold run_reset, bind, get_self, set_self, ret. fold s.
  destruct (restart s) eqn:Hr; simpl negb; simpl orb.
  - destruct (steps s =? 0)%Z eqn:Hs.
    + destruct steps_arg; eexists; (split; [reflexivity|]); simpl;
        split_and!; try done; intros _ Hne; apply Z.eqb_eq in Hs; done.
    + apply Z.eqb_neq in Hs. eexists. split; [reflexivity|].
      split_and!; try done. intros [?|?]; done.
  - destruct steps_arg; eexists; (split; [reflexivity|]); simpl;
      split_and!; done.
Qed.

(** One reset hook, by what it does: there is none, it returns, it raises. *)
Lemma clear_no_hook cbk w : has_clear cbk = false -> clear cbk w = (Ret tt, w).
Proof.
  unfold clear, has_clear, try_except, raise, ret.
  by destruct (clear_hook cbk).
Qed.

Lemma clear_when_returns cbk w :
  has_clear cbk = true -> clear_returns cbk ->
  exists env',
    clear cbk w =
    (Ret tt, {| self := self w; env := env'; trace := trace w ++ [Clear cbk] |}).
Proof.
  unfold clear, has_clear, clear_returns, try_except, bind, emit, foreign, ret.
  destruct (clear_hook cbk) as [h|]; [|done]. intros _ Hret. simpl.
  destruct (Hret h (self w) (env w) eq_refl) as [Hr|Hr];
    destruct (h (self w) (env w)) as [r env']; simpl in Hr; subst r; simpl;
    by exists env'.
Qed.

Lemma clear_when_raises cbk x w :
  clear_raises cbk x ->
  has_clear cbk = true /\
  exists env',
    clear cbk w =
    (Raise x, {| self := self w; env := env'; trace := trace w ++ [Clear cbk] |}).
Proof.
  unfold clear, has_clear, clear_raises, try_except, bind, emit, foreign, ret.
  intros (Hx & h & -> & Hr). split; [done|]. simpl.
  specialize (Hr (self w) (env w)).
  destruct (h (self w) (env w)) as [r env']; simpl in Hr; subst r; simpl.
  exists env'. by destruct x.
Qed.

(** When the reset hooks return they are all called, in order. *)
Lemma clear_all_all_return l : forall w,
  (forall c, c ∈ List.filter has_clear l -> clear_returns c) ->
  exists env',
    clear_all l w =
    (Ret tt,
     {| self := self w; env := env';
        trace := trace w ++ (Clear <$> List.filter has_clear l) |}).
Proof.
  induction l as [|c l IH]; intros w Hall; simpl.
  - exists (env w). unfold ret. rewrite app_nil_r. by destruct w.
  - unfold bind. destruct (has_clear c) eqn:Hc.
    + destruct (clear_when_returns c w Hc) as [env1 ->].
      { apply Hall. simpl. rewrite Hc. apply list_elem_of_here. }
      edestruct IH as [env2 ->]; simpl.
      { intros c' Hc'. apply Hall. simpl. rewrite Hc.
        by apply list_elem_of_further. }
      exists env2. by rewrite <- app_assoc.
    + rewrite (clear_no_hook c w Hc). apply IH.
      intros c' Hc'. apply Hall. simpl. by rewrite Hc.
Qed.

(** A reset hook that raises is the last one called. *)
Lemma clear_all_stops l : forall pre c post x w,
  List.filter has_clear l = pre ++ c :: post ->
  (forall c', c' ∈ pre -> clear_returns c') ->
  clear_raises c x ->
  exists env',
    clear_all l w =
    (Raise x,
     {| self := self w; env := env';
        trace := trace w ++ (Clear <$> pre ++ [c]) |}).
Proof.
  induction l as [|c0 l IH]; intros pre c post x w Hl Hpre Hc; simpl in *.
  - by destruct pre.
  - unfold bind. destruct (has_clear c0) eqn:Hc0.
    + destruct pre as [|c1 pre]; simpl in Hl; injection Hl as -> Hl.
      * destruct (clear_when_raises c x w Hc) as [_ [env1 ->]].
        by exists env1.
      * destruct (clear_when_returns c1 w Hc0) as [env1 ->].
        { apply Hpre, list_elem_of_here. }
        edestruct (IH pre c post x) as [env2 ->]; [exact Hl| |exact Hc|].
        { intros c' Hc'. by apply Hpre, list_elem_of_further. }
        simpl. exists env2. by rewrite <- app_assoc.
    + rewrite (clear_no_hook c0 w Hc0). by apply (IH pre c post).
Qed.


(** [run_pre] on a run that restarts: no reset hook, and the step count of
    the backend is taken over when [backend.run_pre] returns. *)
Lemma run_pre_restart w :
  restart (self w) = true ->
  let s := self w in
  let b0 :=
    match output_path s with
    | Some p => set_backend_output_path (Some p) (backend s)
    | None => backend s
    end in
  let started := backend_run_pre true b0 (env w) in
  let out := run_pre w in
  clears_of (trace out.2) = clears_of (trace w) /\
  backend (self out.2) = started.1.2 /\
  match started.1.1 with
  | None => out.1 = Ret tt /\ steps (self out.2) = backend_steps started.1.2
  | Some x => out.1 = Raise x /\ steps (self out.2) = steps s
  end.
Proof.
  intros Hr. cbv zeta.
  unfold run_pre, bind, get_env, get_self, set_self, emit, foreign_backend, ret.
  simpl. rewrite Hr. simpl.
  destruct (output_path (self w)) as [p|]; simpl;
    match goal with
    | |- context [backend_run_pre true ?b ?e] =>
        destruct (backend_run_pre true b e) as [[[x|] b'] env']
    end; simpl; rewrite ?Hr; simpl;
    rewrite ?clears_of_app; simpl; rewrite ?app_nil_r; done.
Qed.

(** [run_pre] on a run that does not restart: the step count is left as it
    is, and the reset hooks are called first. *)
Lemma run_pre_tail_fresh w1 :
  restart (self w1) = false ->
  steps (self
    ((emit (BackendRunPre false);;
      foreign_backend (backend_run_pre false);;
      s0 <- get_self;;
      (if restart s0
       then set_self (set_steps (backend_steps (backend s0)))
       else ret tt);;
      emit Barrier) w1).2) = steps (self w1).
Proof.
  intros Hr. unfold bind, emit, foreign_backend, get_self, set_self, ret.
  simpl.
  destruct (backend_run_pre false (backend (self w1)) (env w1))
    as [[[e|] b'] env']; simpl; rewrite ?Hr; done.
Qed.

Lemma run_pre_fresh w :
  restart (self w) = false ->
  let s := self w in
  let '(r, w') := run_pre w in
  steps (self w') = steps s /\
  exists cs,
    clears_of (trace w') = clears_of (trace w) ++ cs /\
    cs `prefix_of` to_clear s /\
    (r = Ret tt -> cs = to_clear s) /\
    ((forall c, c ∈ to_clear s -> clear_returns c) -> cs = to_clear s) /\
    (forall pre c post x,
       to_clear s = pre ++ c :: post ->
       (forall c', c' ∈ pre -> clear_returns c') -> clear_raises c x ->
       cs = pre ++ [c] /\ r = Raise x).
Proof.
  intros Hr. cbv zeta. unfold to_clear. rewrite Hr.
  unfold run_pre. unfold bind at 1. unfold get_env at 1.
  unfold bind at 1. unfold set_self at 1.
  unfold bind at 1. unfold get_self at 1. simpl self.
  change (output_path (set_start_time (time_time (env w)) (self w)))
    with (output_path (self w)).
  change (restart (set_start_time (time_time (env w)) (self w)))
    with (restart (self w)).
  change (_callback (set_start_time (time_time (env w)) (self w)))
    with (_callback (self w)).
  rewrite Hr. cbv beta iota zeta delta [negb].
  unfold bind at 1.
  destruct (output_path (self w)) as [p|] eqn:Hp.
  - unfold bind at 1. unfold emit at 1.
    unfold bind at 1. unfold set_self at 1. simpl self. simpl env. simpl trace.
    set (w1 := {| self := _; env := env w; trace := trace w ++ _ |}).
    assert (steps (self w1) = steps (self w)) as Hst1 by done.
    assert (restart (self w1) = false) as Hr1 by done.
    assert (clears_of (trace w1) = clears_of (trace w)) as Hcl1.
    { unfold w1. simpl. by rewrite clears_of_app, app_nil_r. }
    pose proof (clear_all_all_return (_callback (self w)) w1) as Hall.
    pose proof (fun pre c post x =>
                  clear_all_stops (_callback (self w)) pre c post x w1) as Hstop.
    pose proof (clear_all_spec (_callback (self w)) w1) as Hcl.
    destruct (clear_all (_callback (self w)) w1) as [[[]|e|] w2] eqn:Hca;
      destruct Hcl as (Hs2 & Hr2 & cs & Ht2 & Hpre & Hcs); [| |done].
    + specialize (Hcs eq_refl). subst cs.
      assert (restart (self w2) = false) as Hr' by by rewrite Hs2.
      pose proof (run_pre_tail_spec false w2 Hr') as Htail.
      pose proof (run_pre_tail_fresh w2 Hr') as Hsteps.
      cbv zeta in Htail. revert Htail Hsteps.
      match goal with
      | |- context [bind (emit (BackendRunPre ?b)) ?k w2] =>
          destruct (bind (emit (BackendRunPre b)) k w2) as [r w']
      end.
      intros (Hr3 & _ & Hc & tl & Ht & Htl & Hret) Hsteps. cbn [fst snd] in Hsteps |- *.
      assert (clears_of tl = []) as Htl' by (destruct Htl as [->| ->]; done).
      split; [by rewrite Hsteps, Hs2|].
      exists (List.filter has_clear (_callback (self w))).
      rewrite Ht, Ht2, !clears_of_app, clears_of_Clear, Htl', app_nil_r, Hcl1.
      split_and!; [done|done|done|done|].
      intros pre c post x Hto Hpre' Hc'.
      destruct (Hstop pre c post x Hto Hpre' Hc') as [env' Hst]. done.
    + split; [by rewrite Hs2|].
      exists cs. rewrite Ht2, clears_of_app, clears_of_Clear, Hcl1.
      split_and!; [done|done|done| |].
      * intros Hret. destruct (Hall Hret) as [env' Hst]. done.
      * intros pre c post x Hto Hpre' Hc'.
        destruct (Hstop pre c post x Hto Hpre' Hc') as [env' [= -> ->]].
        simpl in Ht2. apply app_inv_head in Ht2.
        apply (f_equal clears_of) in Ht2. rewrite !clears_of_Clear in Ht2.
        done.
  - unfold ret at 1. cbv beta iota.
    set (w1 := {| self := set_start_time _ _; env := env w; trace := trace w |}).
    assert (restart (self w1) = false) as Hr1 by done.
    pose proof (run_pre_tail_spec false w1 Hr1) as Htail.
    pose proof (run_pre_tail_fresh w1 Hr1) as Hsteps.
    cbv zeta in Htail. revert Htail Hsteps.
    match goal with
    | |- context [bind (emit (BackendRunPre ?b)) ?k w1] =>
        destruct (bind (emit (BackendRunPre b)) k w1) as [r w']
    end.
    intros (Hr3 & _ & Hc & tl & Ht & Htl & Hret) Hsteps.
    cbn [fst snd] in Hsteps |- *.
    assert (clears_of tl = []) as Htl' by (destruct Htl as [->| ->]; done).
    split; [done|]. exists [].
    rewrite Ht, clears_of_app, Htl'. split_and!; [done|done|done|done|].
    intros pre c post x Hto. by destruct pre.
Qed.


(** The header is logged, whatever the backend. *)
Lemma report_header_returns w :
  exists evs, report_header w = (Ret tt, logged w evs) /\ clears_of evs = [].
Proof.
  unfold report_header, bind, get_self, emit, ret, logged. simpl.
  destruct (version (backend (self w))); simpl; eexists;
    (split; [rewrite <- !app_assoc; reflexivity|done]).
Qed.

Lemma keeps_through {X Y A} (f : World -> X) (g : X -> Y) (m : M A) :
  keeps f m -> keeps (fun w => g (f w)) m.
Proof. intros Hm w. by rewrite Hm. Qed.

(** What follows [run_pre] in the setup of [run] calls no reset hook and
    leaves the step count and the backend as they are. *)
Lemma run_setup_end_keeps :
  keeps (fun w => (clears_of (trace w), steps (self w), backend (self w)))
    (s <- get_self;;
     set_self (set_initial_steps (steps s));;
     report;;
     s <- get_self;;
     reinit_speedometers (_speedometers s)).
Proof.
  apply keeps_bind; [done|intros s1].
  apply keeps_bind; [done|intros _].
  apply keeps_bind.
  { apply (keeps_through self_and_clears
             (fun sc => (sc.2, steps sc.1, backend sc.1))), report_quiet. }
  intros _. apply keeps_bind; [done|intros s2].
  apply (keeps_through self_and_clears
           (fun sc => (sc.2, steps sc.1, backend sc.1))),
    reinit_speedometers_quiet.
Qed.

(** The setup of [run] around its call of [run_pre]. *)
Lemma run_setup_around_run_pre w :
  exists wh,
    self wh =
      add (_targeter_steps (self w))
          (AsScheduler (Scheduler_new (Some (max_steps (self w))) None None))
          [VInt (max_steps (self w))] [] (self w) /\
    env wh = env w /\
    clears_of (trace wh) = clears_of (trace w) /\
    let '(r, w3) := run_pre wh in
    let '(r', w') := run_setup w in
    clears_of (trace w') = clears_of (trace w3) /\
    steps (self w') = steps (self w3) /\
    backend (self w') = backend (self w3) /\
    (forall x, r = Raise x -> r' = Raise x) /\
    (r' = Ret tt -> r = Ret tt).
Proof.
  unfold run_setup. unfold bind at 1. unfold get_self at 1.
  unfold bind at 1. unfold set_self at 1.
  set (wa := {| self := add _ _ _ _ (self w); env := env w; trace := trace w |}).
  destruct (report_header_returns wa) as (evs & Hh & Hcl).
  exists (logged wa evs). split_and!; [done|done| |].
  { simpl. by rewrite clears_of_app, Hcl, app_nil_r. }
  unfold bind at 1. rewrite Hh. unfold bind at 1.
  destruct (run_pre (logged wa evs)) as [[[]|e|] w3]; [|done|done].
  pose proof (run_setup_end_keeps w3) as Hk.
  match type of Hk with
  | context [?m w3] => destruct (m w3) as [r' w']
  end.
  simpl in Hk. injection Hk as Hcl' Hst Hb. done.
Qed.

Lemma configuration_to_clear : configuration to_clear.
Proof. by repeat split. Qed.

Lemma configuration_restart : configuration restart.
Proof. by repeat split. Qed.

Lemma configuration_output_path : configuration output_path.
Proof. by repeat split. Qed.

Lemma configuration_callback : configuration _callback.
Proof. by repeat split. Qed.

(** Nothing but [run_pre] calls a reset hook. *)
Lemma emit_keeps_clears ev :
  (forall c, ev <> Clear c) -> keeps (fun w => clears_of (trace w)) (emit ev).
Proof.
  intros Hne w. simpl. rewrite clears_of_app.
  destruct ev; simpl; try by rewrite app_nil_r. by destruct (Hne cbk).
Qed.

Ltac hookless :=
  repeat first
    [ match goal with
      | |- keeps _ (emit _) => apply emit_keeps_clears; intros ?; discriminate
      | |- keeps _ (foreign _) => apply foreign_keeps_trace
      | |- keeps _ (foreign_backend _) => apply foreign_backend_keeps_trace
      | |- keeps _ (set_self _) => intros ?; reflexivity
      end
    | frame_step ].

Lemma notify_hookless l : keeps (fun w => clears_of (trace w)) (notify l).
Proof.
  induction l as [|o l IH]; simpl; [done|].
  apply keeps_bind; [unfold call; hookless|intros _; apply IH].
Qed.

Lemma write_checkpoint_hookless :
  keeps (fun w => clears_of (trace w)) write_checkpoint.
Proof. unfold write_checkpoint. hookless. Qed.

Lemma loop_body_hookless : keeps (fun w => clears_of (trace w)) loop_body.
Proof.
  unfold loop_body.
  apply keeps_bind; [done|intros s].
  destruct (all_steps_of s) as [all_steps|]; [|done].
  destruct (py_min _) as [next_step|]; [|done].
  apply keeps_bind; [unfold run_until; hookless|intros _].
  apply keeps_bind; [done|intros s1].
  destruct (next_observers_of s1 _) as [next_observers|]; [|done].
  apply keeps_bind; [apply notify_hookless|intros _].
  apply keeps_bind; [done|intros s2].
  destruct (steps s2 =? _)%Z; [apply write_checkpoint_hookless|done].
Qed.

Lemma main_loop_hookless fuel :
  keeps (fun w => clears_of (trace w)) (main_loop fuel).
Proof.
  induction fuel as [|fuel IH]; simpl; [done|].
  apply keeps_bind; [apply loop_body_hookless|intros _; apply IH].
Qed.

Lemma run_body_hookless fuel :
  keeps (fun w => clears_of (trace w)) (run_body fuel).
Proof.
  unfold run_body.
  apply keeps_bind.
  { unfold initial_notifications.
    apply keeps_bind; [done|intros s].
    apply keeps_bind; [apply notify_hookless|intros _].
    apply keeps_bind; [done|intros s1].
    destruct (steps s1 =? 0)%Z; apply notify_hookless. }
  intros _. apply keeps_bind; [hookless|intros _].
  apply keeps_bind; [hookless|intros _].
  apply main_loop_hookless.
Qed.

Lemma _report_end_hookless : keeps (fun w => clears_of (trace w)) _report_end.
Proof.
  unfold _report_end, elapsed_wall_time, wall_time_per_step_particle,
    wall_time_per_step, elapsed_wall_time, len_system_particle, truediv.
  hookless.
Qed.

Lemma run_protected_hookless fuel :
  keeps (fun w => clears_of (trace w)) (run_protected fuel).
Proof.
  unfold run_protected.
  apply keeps_try_finally; [|hookless].
  apply keeps_try_except; [apply run_body_hookless|].
  intros e k. destruct e; simpl; intros [= <-]; [|hookless..].
  apply keeps_bind; [apply write_checkpoint_hookless|intros _].
  apply keeps_try_except; [apply _report_end_hookless|].
  intros e k [= <-]. done.
Qed.

(** The whole of [run], from its setup. *)
Lemma run_from_setup fuel N w :
  let out := run_prelude N w in
  clears_of (trace (run fuel N w).2) = clears_of (trace out.2) /\
  (forall x, out.1 = Raise x -> run fuel N w = out).
Proof.
  cbv zeta. unfold run, bind.
  destruct (run_prelude N w) as [[[]|e|] w0]; cbn [fst snd]; [|done|done].
  split; [apply (run_protected_hookless fuel w0)|done].
Qed.

(** C2 (as amended).  For every call of [run]: when [restart] is false or
    no step has been made, the counters of the engine and of the backend are
    both set to 0 before anything else, and otherwise the reset changes
    nothing.  The reset hooks that the run calls are those of the registered
    observers that have one (the step targeter included), in the
    notification order, when [restart] is false and an output path is set:
    all of them when no hook raises anything but the [AttributeError] that
    is dropped, and the first ones, up to the hook that raises, otherwise,
    the exception then coming out of [run].  No hook is called when the run
    restarts (also from step 0) or has no output path.  A run that does not
    restart stays at step 0.  On a run that restarts, [backend.run_pre] is
    called on the backend as it is (with the output path assigned) and,
    when it returns, the engine takes over the step count of the backend;
    when it raises, the exception comes out and the step count is left as
    it is.  What follows the setup calls no reset hook, and an exception of
    the setup is the outcome of [run]. *)
Theorem fresh_and_resumed_runs fuel steps_arg w :
  let s := self w in
  let tgt := _targeter_steps s in
  let out := run_prelude steps_arg w in
  let s' := self out.2 in
  let whole := run fuel steps_arg w in
  exists w1 cleared,
    run_reset steps_arg w = (Ret tt, w1) /\
    out = run_setup w1 /\
    env w1 = env w /\
    (restart s = false \/ steps s = 0%Z ->
     steps (self w1) = 0%Z /\ backend_steps (backend (self w1)) = 0%Z) /\
    (restart s = true -> steps s <> 0%Z -> w1 = w) /\
    restart s' = restart s /\ output_path s' = output_path s /\
    _callback s' =
      (if is_targeter tgt then list_remove tgt (_callback s) ++ [tgt]
       else tgt :: list_remove tgt (_callback s)) /\
    clears_of (trace out.2) = clears_of (trace w) ++ cleared /\
    cleared `prefix_of` to_clear s' /\
    (output_path s = None \/ restart s = true -> cleared = []) /\
    (out.1 = Ret tt -> cleared = to_clear s') /\
    ((forall c, c ∈ to_clear s' -> clear_returns c) -> cleared = to_clear s') /\
    (forall pre c post x,
       to_clear s' = pre ++ c :: post ->
       (forall c', c' ∈ pre -> clear_returns c') -> clear_raises c x ->
       cleared = pre ++ [c] /\ out.1 = Raise x) /\
    (restart s = false -> steps s' = 0%Z) /\
    (restart s = true ->
     let b0 :=
       match output_path s with
       | Some p => set_backend_output_path (Some p) (backend (self w1))
       | None => backend (self w1)
       end in
     let started := backend_run_pre true b0 (env w) in
     backend s' = started.1.2 /\
     match started.1.1 with
     | None => steps s' = backend_steps (backend s')
     | Some x => out.1 = Raise x /\ steps s' = steps (self w1)
     end) /\
    clears_of (trace whole.2) = clears_of (trace w) ++ cleared /\
    (forall x, out.1 = Raise x -> whole = out).
Proof.
  intros s tgt out s' whole. subst out s' whole.
  destruct (run_from_setup fuel steps_arg w) as [Hwhole Hlast].
  rewrite Hwhole. clear Hwhole.
  destruct (run_reset_spec steps_arg w)
    as (w1 & Hreset & Ht1 & He1 & Hr1 & Hp1 & Hc1 & Hzero & Hsame).
  fold s in Hr1, Hp1, Hc1, Hzero, Hsame.
  assert (_targeter_steps (self w1) = tgt) as Htg1.
  { revert Hreset. unfold run_reset, bind, get_self, set_self, ret.
    destruct (negb _ || _); destruct steps_arg; by intros [= <-]. }
  assert (run_prelude steps_arg w = run_setup w1) as Hrun
    by (unfold run_prelude, bind; by rewrite Hreset).
  rewrite Hrun in Hlast |- *.
  pose proof (run_setup_configuration to_clear w1 configuration_to_clear)
    as Hto.
  pose proof (run_setup_configuration restart w1 configuration_restart)
    as Hre.
  pose proof (run_setup_configuration output_path w1
                configuration_output_path) as Hop.
  pose proof (run_setup_configuration _callback w1 configuration_callback)
    as Hcb.
  destruct (run_setup_around_run_pre w1)
    as (wh & Hsh & Heh & Hclh & Hpre).
  rewrite <- Hsh in Hto, Hre, Hop, Hcb.
  assert (restart (self wh) = restart s) as Hrh.
  { rewrite Hsh, <- Hr1. unfold add. by destruct (negb (is_targeter _)). }
  assert (output_path (self wh) = output_path s) as Hph.
  { rewrite Hsh, <- Hp1. unfold add. by destruct (negb (is_targeter _)). }
  assert (steps (self wh) = steps (self w1) /\
          backend (self wh) = backend (self w1)) as [Hsth Hbh].
  { rewrite Hsh. unfold add. by destruct (negb (is_targeter _)). }
  assert (_callback (self wh) =
          (if is_targeter tgt then list_remove tgt (_callback s) ++ [tgt]
           else tgt :: list_remove tgt (_callback s))) as Hcbh.
  { rewrite Hsh, add_callback, Htg1, Hc1. unfold ordinary.
    by destruct (is_targeter tgt). }
  rewrite Hrh in Hre. rewrite Hph in Hop. rewrite Hcbh in Hcb.
  rewrite Hto. rewrite Ht1 in Hclh.
  exists w1.
  destruct (restart s) eqn:Hrs.
  - (* a run that restarts *)
    pose proof (run_pre_restart wh Hrh) as Hrp. cbv zeta in Hrp.
    rewrite Hph, Hbh, Heh, He1 in Hrp.
    assert (to_clear (self wh) = []) as Hnone.
    { unfold to_clear. rewrite Hrh. by destruct (output_path (self wh)). }
    rewrite Hnone.
    destruct (run_pre wh) as [r w3]. destruct (run_setup w1) as [r' w'].
    cbn [fst snd] in *.
    destruct Hpre as (Hcl' & Hst' & Hb' & Hraise & Hret).
    destruct Hrp as (Hcl3 & Hb3 & Hst3).
    exists []. rewrite app_nil_r, Hcl', Hcl3, Hclh.
    split_and!; try done.
    + intros pre c post x Hx. by destruct pre.
    + intros _. cbv zeta. rewrite Hb', Hst'. split; [done|].
      destruct (backend_run_pre true _ (env w)).1.1 as [x|].
      * destruct Hst3 as [-> Hst3]. split; [by apply Hraise|].
        by rewrite Hst3.
      * destruct Hst3 as [_ Hst3]. by rewrite Hst3, Hb3.
  - (* a run that does not restart *)
    pose proof (run_pre_fresh wh Hrh) as Hrp. cbv zeta in Hrp.
    destruct (run_pre wh) as [r w3]. destruct (run_setup w1) as [r' w'].
    cbn [fst snd] in *.
    destruct Hpre as (Hcl' & Hst' & Hb' & Hraise & Hret).
    destruct Hrp as (Hst3 & cs & Hcl3 & Hpf & Hcsr & Hall & Hstop).
    exists cs. rewrite Hcl', Hcl3, Hclh.
    destruct (Hzero ltac:(by left)) as [Hz _].
    split_and!; try done.
    + intros [Hn|Hn]; [|done].
      unfold to_clear in Hpf. rewrite Hph, Hn in Hpf.
      by apply prefix_nil_inv in Hpf.
    + intros Hr'. by apply Hcsr, Hret.
    + intros pre c post x Hx Hpre' Hc'.
      destruct (Hstop pre c post x Hx Hpre' Hc') as [-> ->].
      split; [done|]. by apply Hraise.
    + intros _. by rewrite Hst', Hst3, Hsth.
Qed.

End Restart.


(** ** The main loop *)

Section Loop.
Context `{C : Contracts}.
Implicit Types (w : World) (s : Simulation) (l : list Z).







Lemma write_checkpoint_spec w :
  let '(r, w') := write_checkpoint w in
  r <> OutOfFuel /\
  trace w' = trace w ++ [WriteCheckpoint (steps (self w))] /\
  steps (self w') = steps (self w) /\
  _callback (self w') = _callback (self w) /\
  _cbk_params (self w') = _cbk_params (self w).
Proof.
  unfold write_checkpoint, try_except, bind, get_self, emit, raise,
    foreign_backend, ret. simpl.
  destruct backend_write_checkpoint as [f|]; simpl; [|done].
  destruct (f (backend (self w)) (env w)) as [[[e|] b'] env']; simpl; [|done].
  destruct e; simpl; done.
Qed.







End Loop.

(** ** How a run ends *)

Section Termination.
Context `{C : Contracts}.
Implicit Types (w : World) (e : exn).

Lemma wall_time_per_step_particle_pure w :
  (wall_time_per_step_particle w).2 = w /\
  (wall_time_per_step_particle w).1 <> OutOfFuel.
Proof.
  unfold wall_time_per_step_particle, wall_time_per_step, elapsed_wall_time,
    len_system_particle, truediv, try_except, bind, get_self, get_env, ret,
    raise.
  destruct (int_too_large (steps (self w) - initial_steps (self w)));
    [done|].
  destruct (steps (self w) - initial_steps (self w) =? 0)%Z; [done|].
  destruct (system (backend (self w))) as [sys|]; [|done].
  destruct (particle sys) as [ps|]; [|done].
  destruct (int_too_large (Z.of_nat (length ps))); [done|].
  destruct (Z.of_nat (length ps) =? 0)%Z; done.
Qed.

(** The final report logs its first four lines, and the fifth when the
    time per step and particle is available. *)
Lemma _report_end_spec w :
  exists complete,
    (_report_end w).2 = logged w (final_report complete) /\
    (_report_end w).1 =
      (if complete then Ret tt
       else match (wall_time_per_step_particle
                     (logged w (final_report false))).1 with
            | Raise e => Raise e
            | _ => Ret tt
            end) /\
    (_report_end w).1 <> OutOfFuel.
Proof.
  unfold _report_end, elapsed_wall_time, bind, emit, get_self, get_env, ret.
  simpl.
  set (w4 := {| self := self w; env := env w; trace := _ |}).
  assert (w4 = logged w (final_report false)) as Hw4.
  { unfold w4, logged, final_report. simpl. f_equal.
    by rewrite <- !app_assoc. }
  destruct (wall_time_per_step_particle_pure w4) as [Hpure Hfuel].
  rewrite <- Hw4.
  destruct (wall_time_per_step_particle w4) as [[t|e|] w5]; simpl in *;
    subst w5.
  - exists true. split_and!; [|done|done].
    unfold w4, logged, final_report. simpl. f_equal.
    by rewrite <- !app_assoc.
  - exists false. by rewrite Hw4.
  - done.
Qed.

(** The [AttributeError] of the backend's method does not come out of
    [write_checkpoint]. *)
Lemma write_checkpoint_drops_AttributeError w :
  (write_checkpoint w).1 <> Raise AttributeError.
Proof.
  unfold write_checkpoint, try_except, bind, get_self, emit, raise,
    foreign_backend, ret. simpl.
  destruct backend_write_checkpoint as [method|]; simpl; [|done].
  destruct (method (backend (self w)) (env w)) as [[[e|] b'] env']; simpl;
    [|done].
  destruct e; simpl; done.
Qed.

(** The [try] statement of [run] when its suite raises [e]. *)
Lemma run_protected_raise fuel w e w1 :
  run_body fuel w = (Raise e, w1) ->
  run_protected fuel w =
  try_finally
    (match run_handlers e with Some h => h | None => raise e end)
    (emit (Log INFO "goodbye")) w1.
Proof.
  intros Hb. unfold run_protected, try_finally, try_except. rewrite Hb.
  by destruct e.
Qed.

(** On the end-of-run signal: a checkpoint, then the report, whose errors
    are dropped, then the completion marker. *)
Lemma run_protected_SimulationEnd fuel w w1 :
  run_body fuel w = (Raise SimulationEnd, w1) ->
  let ck := write_checkpoint w1 in
  trace ck.2 = trace w1 ++ [WriteCheckpoint (steps (self w1))] /\
  match ck.1 with
  | Ret _ =>
      exists complete,
        run_protected fuel w =
        (Ret tt, logged ck.2 (final_report complete ++ [Log INFO "goodbye"]))
  | Raise e' =>
      run_protected fuel w = (Raise e', logged ck.2 [Log INFO "goodbye"])
  | OutOfFuel => False
  end.
Proof.
  intros Hb ck. subst ck. rewrite (run_protected_raise _ _ _ _ Hb).
  pose proof (write_checkpoint_spec w1) as Hck.
  unfold run_handlers, try_finally, bind.
  destruct (write_checkpoint w1) as [[[]|e'|] w2]; cbn [fst snd];
    destruct Hck as (Hr & Ht & _); [| |done]; (split; [done|]).
  - destruct (_report_end_spec w2) as (complete & Hw & Hres & Hfuel).
    exists complete. unfold try_except.
    destruct (_report_end w2) as [[[]|e|] w3]; cbn [fst snd] in *; subst w3;
      [| |done]; unfold emit, logged, ret; cbn [self env trace];
      by rewrite <- app_assoc.
  - reflexivity.
Qed.




End Termination.

(** ** The parameter table and the notification order *)

Section RegistryKeys.
Context `{C : Contracts}.
Implicit Types (c o : Callback) (l hist : list Callback) (s : Simulation)
  (w : World).

Lemma elem_of_list_remove c x l :
  NoDup l -> x ∈ list_remove c l <-> x ∈ l /\ x <> c.
Proof.
  intros Hl. rewrite list_remove_filter by done.
  by rewrite elem_of_list_filter_bool, other_than_true.
Qed.

Lemma add_keys_match c sch a k s :
  NoDup (_callback s) -> keys_match s -> keys_match (add c sch a k s).
Proof.
  unfold keys_match. intros Hl Hk.
  rewrite add_cbk_params, dom_insert_L, Hk, add_callback.
  apply set_eq. intros x.
  destruct (ordinary c);
    rewrite ?list_to_set_cons, ?list_to_set_app_L, ?list_to_set_cons,
      ?list_to_set_nil, !elem_of_union, !elem_of_list_to_set,
      ?elem_of_list_remove, ?elem_of_singleton, ?elem_of_empty by done;
    destruct (decide (x = c)); tauto.
Qed.

Lemma remove_cbk_params c w :
  _cbk_params (self (remove c w).2) =
  if list_in c (_callback (self w)) then delete c (_cbk_params (self w))
  else _cbk_params (self w).
Proof.
  unfold remove, bind, get_self, set_self, emit.
  by destruct (list_in c (_callback (self w))).
Qed.

Lemma remove_keys_match c w :
  NoDup (_callback (self w)) -> keys_match (self w) ->
  keys_match (self (remove c w).2).
Proof.
  unfold keys_match. intros Hl Hk.
  rewrite remove_cbk_params, remove_callback. unfold list_in.
  case_bool_decide as Hin.
  - rewrite dom_delete_L, Hk. apply set_eq. intros x.
    rewrite elem_of_difference, !elem_of_list_to_set, elem_of_list_remove,
      elem_of_singleton by done. tauto.
  - rewrite Hk. by rewrite list_remove_absent.
Qed.

Lemma apply_ops_keys_match ops : forall hist w,
  NoDup hist -> _callback (self w) = order_of hist -> keys_match (self w) ->
  keys_match (self (apply_ops ops w).2).
Proof.
  induction ops as [|op ops IH]; intros hist w Hh Hw Hk; simpl; [done|].
  destruct (apply_op_order hist op w Hh Hw) as [Hr Hc].
  assert (NoDup (_callback (self w))) as Hnd
    by (rewrite Hw; by apply order_of_NoDup).
  assert (keys_match (self (apply_op op w).2)) as Hk'.
  { destruct op as [c sch a k|c]; simpl.
    - by apply add_keys_match.
    - by apply remove_keys_match. }
  unfold bind. destruct (apply_op op w) as [[[]| |] w1]; simpl in *; try done.
  apply (IH (insertion_step hist op));
    [by apply insertion_step_NoDup|done|done].
Qed.

Lemma init_keys_match b p n ci sp r e :
  keys_match (self (__init__ b p n ci sp r e)).
Proof.
  unfold keys_match. simpl. destruct sp; simpl.
  - rewrite add_cbk_params, add_callback. simpl.
    rewrite dom_insert_L, dom_empty_L.
    destruct (ordinary Speedometer_new); reflexivity.
  - by rewrite dom_empty_L.
Qed.

Lemma registry_keys_shared b p n ci sp r e ops :
  let s := self (apply_ops ops (__init__ b p n ci sp r e)).2 in
  NoDup (_callback s) /\
  (forall c, c ∈ _callback s <-> is_Some (_cbk_params s !! c)).
Proof.
  intros s.
  destruct (init_order b p n ci sp r e) as [Hnd Hord].
  destruct (apply_ops_order ops _ _ Hnd Hord) as [_ Hc]. fold s in Hc.
  pose proof (apply_ops_keys_match ops _ _ Hnd Hord
                (init_keys_match b p n ci sp r e)) as Hk. fold s in Hk.
  assert (NoDup (insertion_order ops
            (_callback (self (__init__ b p n ci sp r e))))) as Hh.
  { clear -Hnd. revert Hnd.
    generalize (_callback (self (__init__ b p n ci sp r e))).
    induction ops as [|op ops IH]; intros hist Hh; simpl; [done|].
    apply IH. by apply insertion_step_NoDup. }
  split; [rewrite Hc; by apply order_of_NoDup|].
  intros c. unfold keys_match in Hk.
  by rewrite <- elem_of_dom, Hk, elem_of_list_to_set.
Qed.

(** After any sequence of [add] and [remove] on a new instance, no callback
    occurs twice in the notification order and the parameter table has an
    entry for exactly the callbacks of the order: the lookups of [notify],
    of the loop and of the report cannot fail on a registered callback. *)
Theorem registry_keys_are_callbacks b p n ci sp r e ops :
  let s := self (apply_ops ops (__init__ b p n ci sp r e)).2 in
  NoDup (_callback s) /\
  (forall c, c ∈ _callback s <-> is_Some (_cbk_params s !! c)) /\
  registry_consistent s.
Proof.
  intros s.
  destruct (registry_keys_shared b p n ci sp r e ops) as (Hnd & Hiff).
  fold s in Hnd, Hiff. split_and!; [done|done|].
  intros c Hin. by apply Hiff.
Qed.

(** [remove] takes a registered callback out of the order and of the
    parameter table and leaves every other registration, and the relative
    order of the others, as they were; for a callback that is not registered
    it only logs a debug line.  In both cases it returns. *)
Theorem remove_unregisters b p n ci sp r e ops c :
  let w := (apply_ops ops (__init__ b p n ci sp r e)).2 in
  let w' := (remove c w).2 in
  (remove c w).1 = Ret tt /\
  (c ∉ _callback (self w')) /\
  _cbk_params (self w') !! c = None /\
  _callback (self w') = List.filter (other_than c) (_callback (self w)) /\
  (forall c', c' <> c ->
     _cbk_params (self w') !! c' = _cbk_params (self w) !! c') /\
  (c ∉ _callback (self w) ->
   self w' = self w /\
   trace w' =
     trace w ++
     [Log DEBUG "attempt to remove inexistent callback %s (dont worry)"]).
Proof.
  intros w w'.
  destruct (registry_keys_shared b p n ci sp r e ops) as (Hnd & Hiff).
  fold w in Hnd, Hiff.
  assert (_callback (self w') = list_remove c (_callback (self w))) as Hcb
    by apply remove_callback.
  split_and!.
  - apply remove_returns.
  - rewrite Hcb. by apply list_remove_not_elem.
  - unfold w'. rewrite remove_cbk_params. unfold list_in.
    case_bool_decide as Hin; [apply lookup_delete_eq|].
    destruct (_cbk_params (self w) !! c) eqn:Hl; [|done].
    exfalso. apply Hin, Hiff. by eexists.
  - rewrite Hcb. by apply list_remove_filter.
  - intros c' Hne. unfold w'. rewrite remove_cbk_params.
    destruct (list_in c (_callback (self w))); [|done].
    by apply lookup_delete_ne.
  - intros Hin. unfold w', remove, bind, get_self, emit, list_in.
    by rewrite bool_decide_eq_false_2.
Qed.

(** Registering a callback that is not registered and removing it again
    gives back the order and the parameter table. *)
Theorem add_then_remove b p n ci sp r e ops c sch a k :
  let w := (apply_ops ops (__init__ b p n ci sp r e)).2 in
  let added :=
    {| self := add c sch a k (self w); env := env w; trace := trace w |} in
  c ∉ _callback (self w) ->
  _callback (self (remove c added).2) = _callback (self w) /\
  _cbk_params (self (remove c added).2) = _cbk_params (self w).
Proof.
  intros w added Hin.
  destruct (registry_keys_shared b p n ci sp r e ops) as (Hnd & Hiff).
  fold w in Hnd, Hiff.
  assert (_cbk_params (self w) !! c = None) as Hnone.
  { destruct (_cbk_params (self w) !! c) eqn:Hl; [|done].
    exfalso. apply Hin, Hiff. by eexists. }
  assert (c ∈ _callback (self added)) as Hin'.
  { unfold added. simpl. rewrite add_callback.
    destruct (ordinary c); [apply list_elem_of_here|].
    apply elem_of_app. right. apply list_elem_of_here. }
  split.
  - rewrite remove_callback. unfold added. simpl. rewrite add_callback.
    rewrite (list_remove_absent c (_callback (self w))) by done.
    destruct (ordinary c); simpl.
    + by rewrite decide_True.
    + clear -Hin. induction (_callback (self w)) as [|y l IH]; simpl.
      * by rewrite decide_True.
      * apply not_elem_of_cons in Hin as [Hne Hin].
        rewrite decide_False by done. f_equal. by apply IH.
  - rewrite remove_cbk_params. unfold list_in.
    rewrite bool_decide_eq_true_2 by done.
    unfold added. simpl. rewrite add_cbk_params.
    by apply delete_insert_id.
Qed.

End RegistryKeys.

(** ** What [notify], [write_checkpoint] and the reports do at the edges *)

Section Edges.
Context `{C : Contracts}.
Implicit Types (c o f : Callback) (l : list Callback) (s : Simulation)
  (w : World).

(** When the observers of the list have their parameters stored and return
    whatever the state of the outside, [notify] calls them all, in the
    order of the list, and returns; the engine is left as it was. *)
Theorem notify_calls_all l w :
  (forall o, o ∈ l -> is_Some (_cbk_params (self w) !! o)) ->
  (forall o p e, o ∈ l -> _cbk_params (self w) !! o = Some p ->
     (call_observer o (self w) (args p) (kwargs p) e).1 = None) ->
  (notify l w).1 = Ret tt /\
  self (notify l w).2 = self w /\
  trace (notify l w).2 = trace w ++ notify_events l (steps (self w)) /\
  calls_of (notify_events l (steps (self w))) = l.
Proof.
  intros Hp Hret. rewrite calls_of_notify_events.
  cut ((notify l w).1 = Ret tt).
  { intros Hr. pose proof (notify_spec l w) as H.
    destruct (notify l w) as [r w']. simpl in *.
    destruct H as (Hs & _ & evs & Ht & _ & _ & _ & Hev).
    rewrite Ht, (Hev Hr). done. }
  revert w Hp Hret. induction l as [|o l IH]; intros w Hp Hret; [done|].
  simpl. unfold bind.
  assert (call o w = (Ret tt, (call o w).2) /\ self (call o w).2 = self w)
    as [Hc Hs].
  { unfold call, bind, get_self, emit, foreign.
    destruct (Hp o ltac:(apply list_elem_of_here)) as [p Hl].
    simpl. rewrite Hl. simpl.
    specialize (Hret o p (env w) ltac:(apply list_elem_of_here) Hl).
    destruct (call_observer o (self w) (args p) (kwargs p) (env w))
      as [[e|] env']; simpl in *; done. }
  rewrite Hc. apply IH; rewrite Hs.
  - intros o' Ho'. apply Hp. by apply list_elem_of_further.
  - intros o' p e Ho'. apply Hret. by apply list_elem_of_further.
Qed.

(** Notifying a callback that is not registered (never added, or removed)
    raises [KeyError] before anything is called: only the debug line is
    logged. *)
Theorem notify_unregistered b p n ci sp r e ops o l :
  let w := (apply_ops ops (__init__ b p n ci sp r e)).2 in
  o ∉ _callback (self w) ->
  notify (o :: l) w =
  (Raise KeyError, logged w [Log DEBUG "notify %s at step %d"]).
Proof.
  intros w Hin.
  destruct (registry_keys_shared b p n ci sp r e ops) as (_ & Hiff).
  fold w in Hiff.
  assert (_cbk_params (self w) !! o = None) as Hnone.
  { destruct (_cbk_params (self w) !! o) eqn:Hl; [|done].
    exfalso. apply Hin, Hiff. by eexists. }
  simpl. unfold bind, call, bind, get_self, emit, raise. simpl.
  by rewrite Hnone.
Qed.

(** [write_checkpoint] never raises [AttributeError]: without a backend
    method it does nothing but return, and the [AttributeError] of the
    method is dropped; any other exception of the method comes out. *)
Theorem write_checkpoint_tolerant w :
  (write_checkpoint w).1 <> Raise AttributeError /\
  (write_checkpoint w).1 <> OutOfFuel /\
  match backend_write_checkpoint with
  | None =>
      write_checkpoint w =
      (Ret tt, logged w [WriteCheckpoint (steps (self w))])
  | Some method =>
      (write_checkpoint w).1 =
      match (method (backend (self w)) (env w)).1.1 with
      | None | Some AttributeError => Ret tt
      | Some e => Raise e
      end
  end.
Proof.
  unfold write_checkpoint, try_except, bind, get_self, emit, raise,
    foreign_backend, ret, logged. simpl.
  destruct backend_write_checkpoint as [method|]; simpl; [|done].
  destruct (method (backend (self w)) (env w)) as [[[e|] b'] env']; simpl;
    [|done].
  destruct e; simpl; done.
Qed.

Lemma logged_nil w : logged w [] = w.
Proof. unfold logged. rewrite app_nil_r. by destruct w. Qed.

Lemma logged_logged w evs1 evs2 :
  logged (logged w evs1) evs2 = logged w (evs1 ++ evs2).
Proof. unfold logged. simpl. by rewrite <- app_assoc. Qed.

Lemma _report_observers_from_step f fs w :
  is_Some (_cbk_params (self w) !! f) ->
  _report_observers_from (f :: fs) w =
  if reportable (self w) f
  then _report_observers_from fs (logged w [observer_line f])
  else (Raise (if is_targeter f then IndexError else AttributeError), w).
Proof.
  intros [p Hl]. simpl.
  unfold reportable, has_target_argument, has_interval_and_calls,
    observer_line, logged, bind, get_self, emit, raise.
  rewrite Hl. destruct (is_targeter f); simpl.
  - by destruct (args p).
  - destruct (get_interval (scheduler p)); [|done].
    by destruct (get_calls (scheduler p)).
Qed.

Lemma _report_observers_from_all fs : forall w,
  (forall f, f ∈ fs -> is_Some (_cbk_params (self w) !! f)) ->
  forallb (reportable (self w)) fs = true ->
  _report_observers_from fs w = (Ret tt, logged w (observer_line <$> fs)).
Proof.
  induction fs as [|f fs IH]; intros w Hp Hall.
  - simpl. by rewrite logged_nil.
  - simpl in Hall. apply andb_true_iff in Hall as [Hf Hall].
    rewrite _report_observers_from_step, Hf
      by (apply Hp, list_elem_of_here).
    rewrite IH; [by rewrite logged_logged|
                 intros f' Hf'; by apply Hp, list_elem_of_further|done].
Qed.

Lemma _report_observers_from_stops pre f post : forall w,
  (forall f', f' ∈ pre ++ f :: post -> is_Some (_cbk_params (self w) !! f')) ->
  forallb (reportable (self w)) pre = true ->
  reportable (self w) f = false ->
  _report_observers_from (pre ++ f :: post) w =
  (Raise (if is_targeter f then IndexError else AttributeError),
   logged w (observer_line <$> pre)).
Proof.
  induction pre as [|f0 pre IH]; intros w Hp Hall Hf.
  - rewrite app_nil_l, _report_observers_from_step, Hf
      by (apply Hp, list_elem_of_here).
    by rewrite logged_nil.
  - simpl in Hall. apply andb_true_iff in Hall as [Hf0 Hall].
    rewrite <- app_comm_cons, _report_observers_from_step, Hf0
      by (apply Hp, list_elem_of_here).
    rewrite IH; [by rewrite logged_logged|
                 intros f' Hf'; by apply Hp, list_elem_of_further|done|done].
Qed.

(** The report of the observers writes one line per registered callback,
    in the notification order, as long as the lines can be written: the
    line of a targeter reads [args[0]] and raises [IndexError] when the
    targeter was registered without argument, the line of any other
    callback reads [s.interval] and [s.calls] and raises [AttributeError]
    when its scheduler (a plain function, say) has no such attribute.  The
    report stops at the first such callback: the lines of the callbacks
    before it are written, and nothing else is done. *)
Theorem report_needs_target_arguments w :
  registry_consistent (self w) ->
  let s := self w in
  (forallb (reportable s) (_callback s) = true ->
   report w = (Ret tt, logged w (observer_line <$> _callback s))) /\
  (forall pre f post,
     _callback s = pre ++ f :: post ->
     forallb (reportable s) pre = true -> reportable s f = false ->
     report w =
     (Raise (if is_targeter f then IndexError else AttributeError),
      logged w (observer_line <$> pre))).
Proof.
  intros Hcons s. split.
  - intros Hall. unfold report, _report, _report_observers, bind, ret, get_self.
    by apply _report_observers_from_all.
  - intros pre f post Hcb Hpre Hf.
    unfold report, _report, _report_observers, bind, ret, get_self.
    fold s. rewrite Hcb. apply _report_observers_from_stops; [|done|done].
    intros f' Hf'. apply Hcons. fold s. by rewrite Hcb.
Qed.

End Edges.

(** ** The whole of [run] *)

Section WholeRun.
Context `{C : Contracts}.
Implicit Types (w : World) (s : Simulation).

Lemma bind_Ret_inv {A B} (m : M A) (k : A -> M B) w b w' :
  bind m k w = (Ret b, w') ->
  exists a w1, m w = (Ret a, w1) /\ k a w1 = (Ret b, w').
Proof.
  unfold bind. destruct (m w) as [[a|e|] w1]; [|done|done].
  intros Hk. by exists a, w1.
Qed.

(** The whole of [run] from the state [w1] that the reset leaves. *)
Lemma run_after_reset fuel N w w1 :
  run_reset N w = (Ret tt, w1) ->
  run fuel N w = (run_setup;; run_protected fuel) w1.
Proof. intros Hr. unfold run, run_prelude, bind. by rewrite Hr. Qed.

Lemma run_configuration {X} (proj : Simulation -> X) fuel N w w1 :
  configuration proj ->
  run_reset N w = (Ret tt, w1) ->
  proj (self (run fuel N w).2) =
  proj (add (_targeter_steps (self w1))
            (AsScheduler (Scheduler_new (Some (max_steps (self w1))) None None))
            [VInt (max_steps (self w1))] [] (self w1)).
Proof.
  intros Hc Hr. rewrite (run_after_reset _ _ _ _ Hr).
  rewrite <- (run_setup_configuration proj w1 Hc).
  unfold bind. destruct (run_setup w1) as [[[]|e|] w2]; simpl; [|done|done].
  apply (run_protected_keeps proj Hc fuel w2).
Qed.

Lemma run_reset_max_steps N w :
  exists w1,
    run_reset N w = (Ret tt, w1) /\
    _targeter_steps (self w1) = _targeter_steps (self w) /\
    max_steps (self w1) =
      match N with
      | Some n =>
          if negb (restart (self w)) || (steps (self w) =? 0)%Z
          then n else max_steps (self w)
      | None => max_steps (self w)
      end.
Proof.
  unfold run_reset, bind, get_self, set_self, ret.
  destruct (negb (restart (self w)) || (steps (self w) =? 0)%Z);
    destruct N; eexists; (split; [reflexivity|]); done.
Qed.

(** The target of a run: [run(steps=N)] makes [N] the maximum number of
    steps when the run is fresh ([restart] false or no step made) and
    leaves it alone otherwise, as does [run()] without argument; nothing
    else in the run assigns it. *)
Theorem run_sets_target fuel N w :
  max_steps (self (run fuel N w).2) =
  match N with
  | Some n =>
      if negb (restart (self w)) || (steps (self w) =? 0)%Z
      then n else max_steps (self w)
  | None => max_steps (self w)
  end.
Proof.
  destruct (run_reset_max_steps N w) as (w1 & Hr & _ & Hm).
  rewrite (run_configuration max_steps fuel N w w1 configuration_max_steps Hr).
  by rewrite add_max_steps.
Qed.

(** However a run ends, the step targeter is registered when it is over,
    once, with the maximum number of steps of the run both as the interval
    of its scheduler and as its argument. *)
Theorem run_registers_step_targeter fuel N w :
  let s' := self (run fuel N w).2 in
  let tgt := _targeter_steps (self w) in
  _targeter_steps s' = tgt /\
  tgt ∈ _callback s' /\
  _cbk_params s' !! tgt =
    Some {| scheduler := Scheduler_new (Some (max_steps s')) None None;
            args := [VInt (max_steps s')]; kwargs := [] |}.
Proof.
  intros s' tgt. subst s' tgt.
  destruct (run_reset_max_steps N w) as (w1 & Hr & Ht & _).
  pose proof (run_configuration registry fuel N w w1
                configuration_registry Hr) as Hreg.
  pose proof (run_configuration _targeter_steps fuel N w w1
                configuration_targeter Hr) as Htg.
  pose proof (run_configuration max_steps fuel N w w1
                configuration_max_steps Hr) as Hmax.
  rewrite add_max_steps in Hmax.
  unfold registry in Hreg. injection Hreg as Hcb Hpar.
  rewrite Hcb, Hpar, Htg, Hmax, <- Ht.
  split_and!.
  - unfold add. by destruct (negb (is_targeter _)).
  - rewrite add_callback.
    destruct (ordinary _); [apply list_elem_of_here|].
    apply elem_of_app. right. apply list_elem_of_here.
  - rewrite add_cbk_params. apply lookup_insert_eq.
Qed.

(** The loop has no normal exit. *)
Lemma main_loop_never_returns fuel : forall w, (main_loop fuel w).1 <> Ret tt.
Proof.
  induction fuel as [|fuel IH]; intros w; simpl; [done|].
  unfold bind. destruct (loop_body w) as [[[]|e|] w1]; simpl; [|done|done].
  apply IH.
Qed.

Lemma run_body_never_returns fuel w : (run_body fuel w).1 <> Ret tt.
Proof.
  unfold run_body, bind.
  destruct (initial_notifications w) as [[[]|e|] w1]; simpl; [|done|done].
  unfold emit. simpl. apply main_loop_never_returns.
Qed.

(** [run] has two normal exits only: the [try] statement returns exactly
    when its suite raised the end-of-run signal (and the final checkpoint
    did not fail) or a user cancellation; the loop itself never ends. *)
Theorem run_protected_returns fuel w :
  (main_loop fuel w).1 <> Ret tt /\
  (run_body fuel w).1 <> Ret tt /\
  ((run_protected fuel w).1 = Ret tt <->
   (run_body fuel w).1 = Raise KeyboardInterrupt \/
   (run_body fuel w).1 = Raise SimulationEnd /\
   (write_checkpoint (run_body fuel w).2).1 = Ret tt).
Proof.
  split_and!; [apply main_loop_never_returns|apply run_body_never_returns|].
  pose proof (run_body_never_returns fuel w) as Hnr.
  destruct (run_body fuel w) as [[[]|e|] w1] eqn:Hb; simpl in *; [done| |].
  - rewrite (run_protected_raise _ _ _ _ Hb).
    destruct e; unfold run_handlers, try_finally;
      try (unfold bind, emit, raise; simpl; split;
           [done|intros [?|[? _]]; done]).
    + (* SimulationEnd *)
      unfold bind.
      pose proof (write_checkpoint_spec w1) as Hck.
      destruct (write_checkpoint w1) as [[[]|e'|] w2]; simpl;
        destruct Hck as (Hr & _); [| |done].
      * split; [intros _; by right|intros _].
        destruct (_report_end_spec w2) as (complete & Hw & Hres & Hfuel).
        unfold try_except.
        destruct (_report_end w2) as [[[]|e|] w3]; simpl in *; done.
      * split; [done|intros [?|[_ ?]]; done].
    + (* KeyboardInterrupt *)
      unfold ret, emit. simpl. split; [intros _; by left|done].
  - unfold run_protected, try_finally, try_except. rewrite Hb. simpl.
    split; [done|intros [?|[? _]]; done].
Qed.

(** When the setup of [run] returns, the initial step count is the current
    one: no step has been made in this run yet, and asking for the wall
    time per step at that point raises [ZeroDivisionError]. *)
Theorem setup_records_initial_steps w :
  (run_setup w).1 = Ret tt ->
  let w' := (run_setup w).2 in
  initial_steps (self w') = steps (self w') /\
  wall_time_per_step w' = (Raise ZeroDivisionError, w').
Proof.
  intros Hr w'. subst w'.
  destruct (run_setup w) as [r w'] eqn:Hsetup. simpl in *. subst r.
  assert (initial_steps (self w') = steps (self w')) as Hi.
  { unfold run_setup in Hsetup.
    apply bind_Ret_inv in Hsetup as (s0 & w0 & _ & Hsetup).
    apply bind_Ret_inv in Hsetup as ([] & w1 & _ & Hsetup).
    apply bind_Ret_inv in Hsetup as ([] & w2 & _ & Hsetup).
    apply bind_Ret_inv in Hsetup as ([] & w3 & _ & Hsetup).
    apply bind_Ret_inv in Hsetup as (s3 & w3' & [= <- <-] & Hsetup).
    apply bind_Ret_inv in Hsetup as ([] & w4 & [= <-] & Hsetup).
    apply bind_Ret_inv in Hsetup as ([] & w5 & Hrep & Hsetup).
    apply bind_Ret_inv in Hsetup as (s5 & w5' & [= <- <-] & Hsetup).
    pose proof (report_keeps_self
      {| self := set_initial_steps (steps (self w3)) (self w3);
         env := env w3; trace := trace w3 |}) as H5.
    rewrite Hrep in H5. simpl in H5.
    pose proof (reinit_speedometers_keeps_self (_speedometers (self w5)) w5)
      as H6.
    rewrite Hsetup in H6. simpl in H6.
    rewrite H6, H5. done. }
  split; [done|].
  unfold wall_time_per_step, elapsed_wall_time, truediv, bind, get_self,
    get_env, ret, raise.
  rewrite Hi, Z.sub_diag. reflexivity.
Qed.

Lemma emit_keeps_run_marks ev :
  is_run_mark ev = false -> keeps (fun w => run_marks (trace w)) (emit ev).
Proof.
  intros Hne w. unfold run_marks. simpl.
  rewrite List.filter_app. simpl. rewrite Hne. by rewrite app_nil_r.
Qed.

Ltac unmarked :=
  repeat first
    [ match goal with
      | |- keeps _ (emit _) => apply emit_keeps_run_marks; reflexivity
      | |- keeps _ (foreign _) => apply foreign_keeps_trace
      | |- keeps _ (foreign_backend _) => apply foreign_backend_keeps_trace
      | |- keeps _ (set_self _) => intros ?; reflexivity
      end
    | frame_step ].

Lemma clear_all_unmarked l :
  keeps (fun w => run_marks (trace w)) (clear_all l).
Proof.
  induction l as [|c l IH]; simpl; [done|].
  apply keeps_bind; [unfold clear; unmarked|intros _; apply IH].
Qed.

Lemma _report_observers_from_unmarked fs :
  keeps (fun w => run_marks (trace w)) (_report_observers_from fs).
Proof. induction fs as [|f fs IH]; simpl; unmarked. apply IH. Qed.

Lemma reinit_speedometers_unmarked l :
  keeps (fun w => run_marks (trace w)) (reinit_speedometers l).
Proof.
  induction l as [|sp l IH]; simpl; [done|].
  apply keeps_bind; [intros ?; reflexivity|intros _; apply IH].
Qed.

Lemma run_prelude_unmarked N :
  keeps (fun w => run_marks (trace w)) (run_prelude N).
Proof.
  unfold run_prelude.
  apply keeps_bind; [unfold run_reset; unmarked|intros _].
  unfold run_setup.
  apply keeps_bind; [done|intros s].
  apply keeps_bind; [unmarked|intros _].
  apply keeps_bind; [unfold report_header; unmarked|intros _].
  apply keeps_bind;
    [unfold run_pre; unmarked; apply clear_all_unmarked|intros _].
  apply keeps_bind; [done|intros s1].
  apply keeps_bind; [unmarked|intros _].
  apply keeps_bind.
  { unfold report, _report, _report_observers.
    apply keeps_bind; [done|intros _].
    apply keeps_bind; [done|intros s2].
    apply _report_observers_from_unmarked. }
  intros _.
  apply keeps_bind; [done|intros s3].
  apply reinit_speedometers_unmarked.
Qed.

(** The setup of [run] is outside its [try] statement: when it raises (a
    reset hook, the backend, or the report of a targeter without argument),
    the exception comes out of [run] as it is, and neither the failure line
    nor the completion marker is logged. *)
Theorem run_setup_failure_is_unmarked fuel N w e :
  (run_prelude N w).1 = Raise e ->
  run fuel N w = (Raise e, (run_prelude N w).2) /\
  run_marks (trace (run fuel N w).2) = run_marks (trace w).
Proof.
  intros He.
  assert (run fuel N w = (Raise e, (run_prelude N w).2)) as Hrun.
  { unfold run, bind. destruct (run_prelude N w) as [r w1]. simpl in *.
    by subst r. }
  split; [done|]. rewrite Hrun. apply run_prelude_unmarked.
Qed.

End WholeRun.

(** ** How [run] ends *)

Section Outcomes.
Context `{C : Contracts}.
Implicit Types (w : World) (e : exn).

Lemma terminates_bind {A B} (m : M A) (k : A -> M B) :
  terminates m -> (forall a, terminates (k a)) -> terminates (bind m k).
Proof.
  intros Hm Hk w. unfold bind. specialize (Hm w).
  destruct (m w) as [[a|e|] w1]; simpl in *; [apply Hk|done|done].
Qed.

Lemma terminates_try_except {A} (m : M A) (h : exn -> option (M A)) :
  terminates m -> (forall e k, h e = Some k -> terminates k) ->
  terminates (try_except m h).
Proof.
  intros Hm Hh w. unfold try_except. specialize (Hm w).
  destruct (m w) as [[a|e|] w1]; simpl in *; [done| |done].
  destruct (h e) as [k|] eqn:Hk; [by apply (Hh e k)|done].
Qed.

Lemma terminates_foreign h : terminates (foreign h).
Proof.
  intros w. unfold foreign. by destruct (h (self w) (env w)) as [[e|] env'].
Qed.

Lemma terminates_foreign_backend h : terminates (foreign_backend h).
Proof.
  intros w. unfold foreign_backend.
  by destruct (h (backend (self w)) (env w)) as [[[e|] b'] env'].
Qed.

Lemma terminates_on_AttributeError {A} (h : M A) e k :
  terminates h -> on_AttributeError h e = Some k -> terminates k.
Proof. intros Hh. destruct e; simpl; intros [= <-] || discriminate. done. Qed.

Ltac total :=
  repeat first
    [ match goal with
      | |- terminates (bind _ _) => apply terminates_bind; [|intro]
      | |- terminates (ret _) => by intros ?
      | |- terminates (raise _) => by intros ?
      | |- terminates get_self => by intros ?
      | |- terminates get_env => by intros ?
      | |- terminates (set_self _) => by intros ?
      | |- terminates (emit _) => by intros ?
      | |- terminates (foreign _) => apply terminates_foreign
      | |- terminates (foreign_backend _) => apply terminates_foreign_backend
      | |- terminates (try_except _ _) =>
          apply terminates_try_except; [|intros ? ? ?]
      | H : on_AttributeError _ _ = Some ?k |- terminates ?k =>
          eapply terminates_on_AttributeError; [|exact H]
      | |- terminates (match ?x with _ => _ end) => destruct x
      end ].

Lemma clear_all_terminates l : terminates (clear_all l).
Proof.
  induction l as [|c l IH]; simpl; [by intros ?|].
  apply terminates_bind; [unfold clear; total|intros _; apply IH].
Qed.

Lemma _report_observers_from_terminates fs :
  terminates (_report_observers_from fs).
Proof. induction fs as [|f fs IH]; simpl; total. apply IH. Qed.

Lemma reinit_speedometers_terminates l : terminates (reinit_speedometers l).
Proof.
  induction l as [|sp l IH]; simpl; [by intros ?|].
  apply terminates_bind; [by intros ?|intros _; apply IH].
Qed.

(** The setup of [run] has no loop. *)
Lemma run_prelude_terminates N : terminates (run_prelude N).
Proof.
  unfold run_prelude.
  apply terminates_bind; [unfold run_reset; total|intros _].
  unfold run_setup.
  apply terminates_bind; [by intros ?|intros s].
  apply terminates_bind; [by intros ?|intros _].
  apply terminates_bind; [unfold report_header; total|intros _].
  apply terminates_bind;
    [unfold run_pre; total; apply clear_all_terminates|intros _].
  apply terminates_bind; [by intros ?|intros s1].
  apply terminates_bind; [by intros ?|intros _].
  apply terminates_bind.
  { unfold report, _report, _report_observers.
    apply terminates_bind; [by intros ?|intros _].
    apply terminates_bind; [by intros ?|intros s2].
    apply _report_observers_from_terminates. }
  intros _.
  apply terminates_bind; [by intros ?|intros s3].
  apply reinit_speedometers_terminates.
Qed.

(** C5 (as amended).  How a call of [run] ends, by the outcome of its
    setup (the reset of the counters, the registration of the step
    targeter, the header, [run_pre] and the report: lines 253-267) and of
    the suite of its [try] statement (the initial notifications and the
    loop):
    - an exception raised by the setup, a user cancellation included, comes
      out of [run] as it is, and neither the failure line nor the
      completion marker is logged;
    - on the end-of-run signal raised in the suite, a checkpoint is
      requested; when it returns the final report is attempted and [run]
      returns whether or not the report raised, the completion marker being
      the last line logged; when the checkpoint raises, its exception comes
      out after the completion marker, without report and without failure
      line;
    - on a user cancellation raised in the suite [run] returns, and nothing
      but the completion marker is logged: no report, no checkpoint;
    - on any other exception raised in the suite the failure is logged,
      then the completion marker, and the exception is raised again.
    The setup always ends, and the suite never ends without exception. *)
Theorem run_outcomes fuel N w :
  let setup := run_prelude N w in
  let w0 := setup.2 in
  let suite := run_body fuel w0 in
  let w1 := suite.2 in
  let ck := write_checkpoint w1 in
  match setup.1 with
  | Raise e =>
      run fuel N w = (Raise e, w0) /\
      run_marks (trace w0) = run_marks (trace w)
  | OutOfFuel => False
  | Ret _ =>
      match suite.1 with
      | Ret _ => False
      | OutOfFuel => run fuel N w = (OutOfFuel, w1)
      | Raise SimulationEnd =>
          trace ck.2 = trace w1 ++ [WriteCheckpoint (steps (self w1))] /\
          match ck.1 with
          | Ret _ =>
              exists complete,
                run fuel N w =
                (Ret tt,
                 logged ck.2 (final_report complete ++ [Log INFO "goodbye"]))
          | Raise e' =>
              e' <> AttributeError /\
              run fuel N w = (Raise e', logged ck.2 [Log INFO "goodbye"])
          | OutOfFuel => False
          end
      | Raise KeyboardInterrupt =>
          run fuel N w = (Ret tt, logged w1 [Log INFO "goodbye"])
      | Raise e =>
          run fuel N w =
          (Raise e,
           logged w1 [Log ERROR "simulation failed"; Log INFO "goodbye"])
      end
  end.
Proof.
  intros setup w0 suite w1 ck. subst ck w1 suite w0 setup.
  pose proof (run_prelude_terminates N w) as Hfuel.
  pose proof (run_prelude_unmarked N w) as Hmarks.
  unfold run, bind.
  destruct (run_prelude N w) as [[[]|e|] w0]; cbn [fst snd] in *;
    [|split; [done|exact Hmarks]|by apply Hfuel].
  pose proof (run_body_never_returns fuel w0) as Hnr.
  destruct (run_body fuel w0) as [[[]|e|] w1] eqn:Hb; cbn [fst snd] in *;
    [done| |].
  - destruct e;
      try (rewrite (run_protected_raise _ _ _ _ Hb);
           unfold run_handlers, try_finally, bind, emit, raise, ret, logged;
           cbn [self env trace]; by rewrite <- ?app_assoc).
    pose proof (run_protected_SimulationEnd fuel w0 w1 Hb) as [Ht Hm].
    pose proof (write_checkpoint_drops_AttributeError w1) as Hne.
    split; [exact Ht|].
    destruct (write_checkpoint w1) as [[[]|e'|] w2]; cbn [fst snd] in *;
      [exact Hm|split; [congruence|exact Hm]|exact Hm].
  - unfold run_protected, try_finally, try_except. by rewrite Hb.
Qed.

End Outcomes.

(** ** The role of a callback, read off its name *)

Section Names.
Implicit Types (s p sub pre post mid : string).

Lemma append_String a s1 s2 :
  (String a s1 ++ s2)%string = String a (s1 ++ s2)%string.
Proof. reflexivity. Qed.

Lemma append_Empty s : (EmptyString ++ s)%string = s.
Proof. reflexivity. Qed.

Lemma startswith_spec p s :
  startswith p s = true <-> exists post, s = (p ++ post)%string.
Proof.
  revert s. induction p as [|a p IH]; intros s; simpl.
  - split; [intros _; by exists s|done].
  - destruct s as [|b s].
    + split; [done|intros [post Hp]]. rewrite append_String in Hp.
      discriminate.
    + destruct (decide (a = b)) as [->|Hne].
      * rewrite IH. split; intros [post Hp]; exists post;
          rewrite append_String in *; congruence.
      * split; [done|intros [post Hp]]. rewrite append_String in Hp.
        congruence.
Qed.

Lemma str_in_unfold sub s :
  str_in sub s =
  if startswith sub s then true
  else match s with
       | EmptyString => false
       | String _ s' => str_in sub s'
       end.
Proof. by destruct s. Qed.

Lemma str_in_spec sub s :
  str_in sub s = true <->
  exists pre post, s = (pre ++ sub ++ post)%string.
Proof.
  split.
  - induction s as [|a s IH]; rewrite str_in_unfold;
      destruct (startswith sub _) eqn:Hst.
    + apply startswith_spec in Hst as [post Hp]. intros _.
      by exists EmptyString, post.
    + done.
    + apply startswith_spec in Hst as [post Hp]. intros _.
      by exists EmptyString, post.
    + intros (pre & post & Hp)%IH. exists (String a pre), post.
      by rewrite append_String, Hp.
  - intros (pre & post & ->). induction pre as [|a pre IH].
    + rewrite str_in_unfold, append_Empty.
      replace (startswith sub (sub ++ post)%string) with true; [done|].
      symmetry. apply startswith_spec. by exists post.
    + rewrite str_in_unfold, append_String.
      by destruct (startswith sub _).
Qed.

Lemma lower_app s1 s2 :
  lower (s1 ++ s2)%string = (lower s1 ++ lower s2)%string.
Proof.
  induction s1 as [|a s1 IH]; [done|].
  rewrite append_String. simpl lower. by rewrite append_String, IH.
Qed.

Lemma lower_split x : forall s y,
  lower s = (x ++ y)%string ->
  exists s1 s2, s = (s1 ++ s2)%string /\ lower s1 = x /\ lower s2 = y.
Proof.
  induction x as [|a x IH]; intros s y.
  - rewrite append_Empty. intros Hs. by exists EmptyString, s.
  - rewrite append_String. destruct s as [|b s]; simpl; [done|].
    intros [= Ha Hs].
    destruct (IH s y Hs) as (s1 & s2 & -> & H1 & H2).
    exists (String b s1), s2. rewrite append_String. simpl.
    by rewrite Ha, H1.
Qed.

(** A callback is a targeter exactly when its name contains the letters of
    "target" in a row, each in either case; every other callback is
    ordinary. *)
Theorem is_targeter_spec (c : Callback) :
  is_targeter c = true <->
  exists pre mid post,
    __name__ c = (pre ++ mid ++ post)%string /\ lower mid = "target".
Proof.
  unfold is_targeter. rewrite str_in_spec. split.
  - intros (x & y & Hl).
    destruct (lower_split _ _ _ Hl) as (pre & rest & Hn & Hpre & Hrest).
    destruct (lower_split _ _ _ Hrest) as (mid & post & -> & Hmid & Hpost).
    by exists pre, mid, post.
  - intros (pre & mid & post & -> & Hmid).
    exists (lower pre), (lower post). by rewrite !lower_app, Hmid.
Qed.

End Names.

(** ** The ordered set of species *)

Section OrderedSetFacts.
Import OrderedSet.
Context {A : Type} `{EqDecision A} (le : relation A) `{!RelDecision le}.
Implicit Types (x item : A) (l its new : list A) (self : @OrderedSet.t A).

Lemma update_loop_spec new : forall its b,
  let out := update_loop new its b in
  (forall x, x ∈ out.1 <-> x ∈ its \/ x ∈ new) /\
  (NoDup its -> NoDup out.1) /\
  (out = (its, b) \/ out.2 = true) /\
  ((forall x, x ∈ new -> x ∈ its) -> out = (its, b)).
Proof.
  induction new as [|item new IH]; intros its b; simpl.
  - split_and!; [|done|by left|done].
    intros x. rewrite elem_of_nil. tauto.
  - case_bool_decide as Hin.
    + destruct (IH its b) as (H1 & H2 & H3 & H4). split_and!; [|done|done|].
      * intros x. rewrite H1, elem_of_cons.
        split; [tauto|]. intros [?|[->|?]]; tauto.
      * intros Hall. apply H4. intros x Hx. apply Hall.
        by apply list_elem_of_further.
    + destruct (IH (its ++ [item]) true) as (H1 & H2 & H3 & H4).
      split_and!.
      * intros x. rewrite H1, elem_of_app, list_elem_of_singleton,
          elem_of_cons. tauto.
      * intros Hnd. apply H2. apply NoDup_app. split_and!; [done| |].
        -- intros x Hx ->%list_elem_of_singleton. done.
        -- apply NoDup_singleton.
      * right. by destruct H3 as [->|?].
      * intros Hall. exfalso. apply Hin, Hall, list_elem_of_here.
Qed.

Lemma update_elem_of self new x :
  x ∈ items (update le self new) <-> x ∈ items self \/ x ∈ new.
Proof.
  unfold update.
  destruct (update_loop_spec new (items self) false) as (H1 & _).
  destruct (update_loop new (items self) false) as [its [|]]; simpl in *;
    [|done].
  by rewrite merge_sort_Permutation.
Qed.

Lemma update_NoDup self new :
  NoDup (items self) -> NoDup (items (update le self new)).
Proof.
  intros Hnd. unfold update.
  destruct (update_loop_spec new (items self) false) as (_ & H2 & _).
  destruct (update_loop new (items self) false) as [its [|]]; simpl in *;
    [|by apply H2].
  rewrite merge_sort_Permutation. by apply H2.
Qed.

Lemma updates_snoc batches new :
  updates le (batches ++ [new]) = update le (updates le batches) new.
Proof. unfold updates. by rewrite foldl_app. Qed.

Lemma updates_NoDup batches : NoDup (items (updates le batches)).
Proof.
  induction batches as [|new batches IH] using rev_ind.
  - apply NoDup_nil_2.
  - rewrite updates_snoc. by apply update_NoDup.
Qed.

Lemma updates_elem_of batches x :
  x ∈ items (updates le batches) <-> exists new, new ∈ batches /\ x ∈ new.
Proof.
  induction batches as [|new batches IH] using rev_ind.
  - simpl. rewrite elem_of_nil. split; [done|].
    intros (new & Hn & _). by apply elem_of_nil in Hn.
  - rewrite updates_snoc, update_elem_of, IH. split.
    + intros [(b & Hb & Hx)|Hx].
      * exists b. split; [|done]. apply elem_of_app. by left.
      * exists new. split; [|done]. apply elem_of_app. right.
        apply list_elem_of_here.
    + intros (b & [Hb|Hb%list_elem_of_singleton]%elem_of_app & Hx).
      * left. by exists b.
      * right. by subst.
Qed.

(** [update] adds exactly the new items: afterwards the set holds what it
    held and what it was given, and when it is given nothing that it does
    not hold already it is left as it is (not even sorted again). *)
Theorem update_adds_the_new_items self new :
  (forall x, x ∈ items (update le self new) <-> x ∈ items self \/ x ∈ new) /\
  ((forall x, x ∈ new -> x ∈ items self) -> update le self new = self) /\
  update le (update le self new) new = update le self new.
Proof.
  assert (forall self' new', (forall x, x ∈ new' -> x ∈ items self') ->
            update le self' new' = self') as Hid.
  { intros self' new' Hall. unfold update.
    destruct (update_loop_spec new' (items self') false) as (_ & _ & _ & H4).
    rewrite (H4 Hall). by destruct self'. }
  split_and!.
  - apply update_elem_of.
  - apply Hid.
  - apply Hid. intros x Hx. apply update_elem_of. by right.
Qed.

(** Positions: [index] returns the first position of an item that the set
    holds, [__getitem__] at that position gives the item back, and [index]
    raises [ValueError] for an item that the set does not hold. *)
Lemma list_index_spec item l :
  match list_index item l with
  | Some i => l !! i = Some item /\ forall j : nat, (j < i)%nat -> l !! j <> Some item
  | None => item ∉ l
  end.
Proof.
  induction l as [|x l IH]; simpl.
  - apply not_elem_of_nil.
  - destruct (decide (x = item)) as [->|Hne].
    + split; [done|]. intros j Hj. lia.
    + destruct (list_index item l) as [i|]; simpl.
      * destruct IH as [Hi Hfirst]. split; [done|].
        intros [|j] Hj; simpl; [congruence|]. apply Hfirst. lia.
      * apply not_elem_of_cons. done.
Qed.

Lemma list_getitem_lookup l (i : nat) x :
  l !! i = Some x -> list_getitem l (Z.of_nat i) = Ret x.
Proof.
  intros Hi. pose proof (lookup_lt_Some _ _ _ Hi) as Hlt.
  assert ((Z.of_nat i <? 0)%Z = false) as H0 by (apply Z.ltb_ge; lia).
  assert ((Z.of_nat (length l) <=? Z.of_nat i)%Z = false) as H1
    by (apply Z.leb_gt; lia).
  unfold list_getitem. cbv zeta. rewrite H0. cbv iota. rewrite H0, H1.
  simpl. by rewrite Nat2Z.id, Hi.
Qed.

Theorem index_then_getitem self item :
  match index self item with
  | Ret i =>
      item ∈ items self /\
      __getitem__ self (Z.of_nat i) = Ret item /\
      forall j : nat, (j < i)%nat -> __getitem__ self (Z.of_nat j) <> Ret item
  | Raise e => e = OtherError "ValueError" /\ item ∉ items self
  | OutOfFuel => False
  end.
Proof.
  unfold index, __getitem__.
  pose proof (list_index_spec item (items self)) as H1.
  destruct (list_index item (items self)) as [i|]; [|done].
  destruct H1 as [Hi Hfirst]. split_and!.
  - by eapply list_elem_of_lookup_2.
  - by apply list_getitem_lookup.
  - intros j Hj Hget. apply (Hfirst j Hj).
    assert (j < length (items self))%nat as Hlt
      by (apply lookup_lt_Some in Hi; lia).
    destruct (lookup_lt_is_Some_2 _ _ Hlt) as [y Hy].
    rewrite (list_getitem_lookup _ _ _ Hy) in Hget. congruence.
Qed.

(** In a set built by [update] no item occurs twice, so that positions and
    items determine each other: the item at a position has that position
    as its index. *)
Theorem getitem_then_index batches (i : nat) item :
  let self := updates le batches in
  NoDup (items self) /\
  (__getitem__ self (Z.of_nat i) = Ret item -> index self item = Ret i).
Proof.
  intros self. pose proof (updates_NoDup batches) as Hnd. fold self in Hnd.
  split; [done|].
  assert ((Z.of_nat i <? 0)%Z = false) as H0 by (apply Z.ltb_ge; lia).
  unfold __getitem__, index, list_getitem. cbv zeta.
  rewrite H0. cbv iota. rewrite H0. simpl orb.
  destruct (Z.of_nat (length (items self)) <=? Z.of_nat i)%Z; [done|].
  rewrite Nat2Z.id.
  destruct (items self !! i) as [x|] eqn:Hi; [|done]. intros [= ->].
  pose proof (list_index_spec item (items self)) as H1.
  destruct (list_index item (items self)) as [j|].
  - destruct H1 as [Hj _]. f_equal. by eapply NoDup_lookup.
  - exfalso. apply H1. by eapply list_elem_of_lookup_2.
Qed.

End OrderedSetFacts.

Section OrderedSetOrder.
Import OrderedSet.
Context {A : Type} `{EqDecision A} (le : relation A) `{!RelDecision le}.
Context `{!PartialOrder le, !Total le}.
Implicit Types (x item : A) (l its new : list A) (self : @OrderedSet.t A).

Lemma update_sorted self new :
  StronglySorted le (items self) ->
  StronglySorted le (items (update le self new)).
Proof.
  intros Hs. unfold update.
  destruct (update_loop_spec new (items self) false) as (_ & _ & H3 & _).
  destruct (update_loop new (items self) false) as [its [|]]; simpl in *.
  - apply StronglySorted_merge_sort; apply _.
  - destruct H3 as [[= ->]|?]; done.
Qed.

Lemma updates_sorted_shared batches :
  StronglySorted le (items (updates le batches)).
Proof.
  induction batches as [|new batches IH] using rev_ind.
  - constructor.
  - rewrite updates_snoc. by apply update_sorted.
Qed.

(** A set built by [update] is kept sorted and without duplicates, however
    the items arrive. *)
Theorem updates_sorted batches :
  StronglySorted le (items (updates le batches)) /\
  NoDup (items (updates le batches)) /\
  (forall x, x ∈ items (updates le batches) <->
             exists new, new ∈ batches /\ x ∈ new).
Proof.
  split_and!;
    [apply updates_sorted_shared|apply updates_NoDup|apply updates_elem_of].
Qed.

(** The set depends on the items it was given only, not on the order nor on
    the grouping in which [update] received them. *)
Theorem updates_canonical batches1 batches2 :
  (forall x, (exists new, new ∈ batches1 /\ x ∈ new) <->
             (exists new, new ∈ batches2 /\ x ∈ new)) ->
  updates le batches1 = updates le batches2.
Proof.
  intros Hsame.
  assert (items (updates le batches1) = items (updates le batches2)) as Hi.
  { apply (StronglySorted_unique le); [apply updates_sorted_shared..|].
    apply NoDup_Permutation; [apply updates_NoDup..|].
    intros x. by rewrite !updates_elem_of. }
  destruct (updates le batches1), (updates le batches2). simpl in Hi.
  by subst.
Qed.

End OrderedSetOrder.

(** * Worked examples *)

Section DemoFacts.
#[local] Existing Instances Demo.foreign Demo.contracts.
Import Demo.

(** C1, as stated, fails: two ordinary observers registered in the order
    [write_a], [write_b] are notified in the order [write_b], [write_a]. *)
Lemma insertion_order_not_kept :
  let w := (apply_ops ops_ab fresh).2 in
  insertion_order ops_ab (_callback (self fresh)) = [writer_a; writer_b] /\
  _non_targeters (self w) = [writer_b; writer_a] /\
  _non_targeters (self w) <>
    List.filter ordinary (insertion_order ops_ab (_callback (self fresh))).
Proof. vm_compute. split_and!; congruence. Qed.

Lemma add_again_replaces_witness :
  let s := self (apply_ops ops_ab fresh).2 in
  let s' := add writer_a (AsInt 7) [VInt 1] [] s in
  writer_a ∈ _callback s /\
  _callback s' = [writer_a; writer_b] /\
  _cbk_params s' !! writer_a =
    Some {| scheduler := as_scheduler (AsInt 7); args := [VInt 1]; kwargs := [] |}.
Proof.
  assert (writer_a ∈ _callback (self (apply_ops ops_ab fresh).2)) as Hin.
  { vm_compute. apply list_elem_of_further, list_elem_of_here. }
  pose proof (add_again_replaces None (Some "out/traj.xyz") 10 5 false false
                (0%Z : Env) ops_ab writer_a (AsInt 7) [VInt 1] [] Hin)
    as (H1 & _ & _ & H4 & _).
  split_and!; [exact Hin|exact H1|exact H4].
Defined.

(** C3, as stated, fails: on a new simulation, where no step has been made
    and no system is attached, the call raises [ZeroDivisionError]. *)
Lemma wall_time_per_step_particle_raises :
  system (backend (self fresh)) = None /\
  steps (self fresh) = initial_steps (self fresh) /\
  wall_time_per_step_particle fresh = (Raise ZeroDivisionError, fresh).
Proof. split_and!; reflexivity. Qed.

Lemma wall_time_per_step_particle_without_system_witness :
  system (backend (self at_ten)) = None /\
  wall_time_per_step_particle at_ten = (Ret fzero, at_ten).
Proof.
  split; [reflexivity|].
  exact (wall_time_per_step_particle_without_system at_ten eq_refl).
Defined.

Lemma run_keeps_max_steps_on_resume_witness :
  restart (self resumed) = true /\
  (0 < steps (self resumed))%Z /\
  max_steps (self (run 20 (Some 50%Z) resumed).2) = 10%Z.
Proof.
  split_and!; [reflexivity|reflexivity|].
  exact (run_keeps_max_steps_on_resume 20 (Some 50%Z) resumed eq_refl eq_refl).
Defined.

(** C2, as stated, fails: a simulation that is asked to restart before any
    step has been made gets its counters reset, but [run] calls no reset
    hook, although an output path is set and [write_a] has such a hook; and
    a run without output path calls none either. *)
Lemma no_reset_hook_on_restart_at_zero :
  (restart (self restart_at_zero) = true /\
   steps (self restart_at_zero) = 0%Z /\
   has_clear writer_a = true /\
   _callback (self restart_at_zero) = [writer_a] /\
   (run 20 (Some 10%Z) restart_at_zero).1 = Ret tt /\
   clears_of (trace (run 20 (Some 10%Z) restart_at_zero).2) = []) /\
  (restart (self no_output) = false /\
   has_clear writer_a = true /\
   _callback (self no_output) = [writer_a] /\
   (run 20 (Some 10%Z) no_output).1 = Ret tt /\
   clears_of (trace (run 20 (Some 10%Z) no_output).2) = []).
Proof. vm_compute. split_and!; reflexivity. Qed.

Lemma run_pre_without_output_path_witness :
  output_path (self no_output) = None /\
  exists new,
    trace (run_pre no_output).2 = trace no_output ++ new /\
    (forall cbk, Clear cbk ∉ new) /\
    (forall p, SetBackendOutputPath p ∉ new).
Proof.
  split; [reflexivity|].
  destruct (run_pre_without_output_path no_output eq_refl)
    as (new & H1 & H2 & H3 & _).
  exists new. split_and!; [exact H1|exact H2|exact H3].
Defined.




(** The first iteration on [ready]: the two writers tie at step three and
    are both called, [write_b] first. *)
Example first_iteration_tie :
  (loop_body ready).1 = Ret tt /\
  calls_of (drop (length (trace ready)) (trace (loop_body ready).2)) =
    [writer_b; writer_a] /\
  steps (self (loop_body ready).2) = 3%Z.
Proof. vm_compute. split_and!; reflexivity. Qed.

(** C5, as stated, fails for what is raised outside the [try] statement.
    A writer whose reset hook raises makes [run] fail in its setup: the
    exception comes out, but neither the failure line nor the completion
    marker is logged.  And when the final checkpoint cannot be written, the
    run that has reached its target fails after the completion marker,
    without the failure line. *)
Lemma failures_outside_the_try :
  let out := run 20 (Some 10%Z) locked in
  let out' := run 20 (Some 10%Z) disk_full in
  (out.1 = Raise (OtherError "locked") /\
   run_marks (trace out.2) = []) /\
  (steps (self out'.2) = 10%Z /\
   out'.1 = Raise (OtherError "disk full") /\
   run_marks (trace out'.2) = [Log INFO "goodbye"]).
Proof. vm_compute. split_and!; reflexivity. Qed.

Lemma run_outcomes_witness :
  (run_prelude (Some 10%Z) cancellable).1 = Ret tt /\
  (run_body 20 (run_prelude (Some 10%Z) cancellable).2).1 =
    Raise KeyboardInterrupt /\
  run 20 (Some 10%Z) cancellable =
    (Ret tt,
     logged (run_body 20 (run_prelude (Some 10%Z) cancellable).2).2
       [Log INFO "goodbye"]).
Proof.
  assert ((run_prelude (Some 10%Z) cancellable).1 = Ret tt) as H0
    by (vm_compute; reflexivity).
  assert ((run_body 20 (run_prelude (Some 10%Z) cancellable).2).1 =
          Raise KeyboardInterrupt) as H1 by (vm_compute; reflexivity).
  split; [exact H0|]. split; [exact H1|].
  pose proof (run_outcomes 20 (Some 10%Z) cancellable) as H.
  cbv zeta in H. rewrite H0, H1 in H. exact H.
Defined.

(** The scenario of a cancellation at step four of ten: [run] returns, the
    last line logged is the completion marker and no final report nor
    checkpoint precedes it. *)
Example cancellation_at_step_four :
  let out := run_protected 20 ready_to_cancel in
  out.1 = Ret tt /\
  steps (self out.2) = 4%Z /\
  drop (length (trace ready_to_cancel)) (trace out.2) =
    [Log DEBUG "notify %s at step %d"; Call target_steps 0;
     Log DEBUG "notify %s at step %d"; Call interrupt 0;
     Log INFO "starting at step: %d"; Log INFO "";
     BackendRunUntil 4; Log DEBUG "notify %s at step %d"; Call interrupt 4;
     Log INFO "goodbye"].
Proof. vm_compute. split_and!; reflexivity. Qed.

(** The scenario: target step 10, checkpoint interval 5, writers every 3
    steps.  The writers are called at 0, 3, 6 and 9, checkpoints are
    requested at 5 and at 10, and the run ends when the step targeter fires
    at step 10. *)
Example run_to_ten :
  let out := run 20 (Some 10%Z) with_writers in
  out.1 = Ret tt /\
  steps (self out.2) = 10%Z /\
  checkpoints_of (trace out.2) = [5%Z; 10%Z] /\
  omap (fun ev => match ev with
                  | Call o n => if decide (o = writer_a) then Some n else None
                  | _ => None
                  end) (trace out.2) = [0%Z; 3%Z; 6%Z; 9%Z] /\
  last (trace out.2) = Some (Log INFO "goodbye").
Proof. vm_compute. split_and!; reflexivity. Qed.

(** The scenario of a restart: the backend reports step 7, the target is
    10.  The engine resumes at step 7 and calls no reset hook. *)
Example resume_at_seven :
  let pre := run_prelude None resumed in
  pre.1 = Ret tt /\
  steps (self pre.2) = 7%Z /\
  clears_of (trace pre.2) = [] /\
  steps (self (run 20 None resumed).2) = 10%Z.
Proof. vm_compute. split_and!; reflexivity. Qed.

Lemma writers_clear_returns c : c ∈ [writer_b; writer_a] -> clear_returns c.
Proof.
  intros Hin h s e Hh.
  repeat (apply elem_of_cons in Hin as [->|Hin]);
    [vm_compute in Hh; injection Hh as <-; left; reflexivity..|].
  apply elem_of_nil in Hin. destruct Hin.
Defined.

Lemma fresh_and_resumed_runs_witness :
  let out := run_prelude (Some 10%Z) with_writers in
  to_clear (self out.2) = [writer_b; writer_a] /\
  (forall c, c ∈ [writer_b; writer_a] -> clear_returns c) /\
  clears_of (trace out.2) = [writer_b; writer_a] /\
  steps (self out.2) = 0%Z /\
  clears_of (trace (run 20 (Some 10%Z) with_writers).2) = [writer_b; writer_a].
Proof.
  assert (to_clear (self (run_prelude (Some 10%Z) with_writers).2) =
          [writer_b; writer_a]) as Hto by (vm_compute; reflexivity).
  assert (clears_of (trace with_writers) = []) as Hnone
    by (vm_compute; reflexivity).
  destruct (fresh_and_resumed_runs 20 (Some 10%Z) with_writers)
    as (w1 & cleared & _ & _ & _ & _ & _ & _ & _ & _ & Hcl & _ & _ & _ &
        Hall & _ & Hfresh & _ & Hwhole & _).
  rewrite Hto in Hall.
  rewrite Hnone, (Hall writers_clear_returns) in Hcl, Hwhole.
  split; [exact Hto|]. split; [exact writers_clear_returns|].
  split; [exact Hcl|]. split; [apply Hfresh; reflexivity|exact Hwhole].
Defined.

(** A writer whose files cannot be removed: the reset hooks of the
    observers before it in the notification order are called, its own
    raises, and the hook of the writer after it is not called. *)
Example reset_hook_failure :
  let out := run_prelude (Some 10%Z) locked in
  to_clear (self out.2) = [writer_b; writer_locked; writer_a] /\
  out.1 = Raise (OtherError "locked") /\
  clears_of (trace out.2) = [writer_b; writer_locked].
Proof. vm_compute. split_and!; reflexivity. Qed.





(** The scenario of a restart once the target is reached: the step
    targeter ends the run in the initial notifications, before any step,
    and the final checkpoint is requested at step ten; the last line of the
    report is missing, no step having been made. *)
Example resume_when_done :
  let out := run 20 None done_already in
  out.1 = Ret tt /\
  calls_of (trace out.2) = [target_steps] /\
  checkpoints_of (trace out.2) = [10%Z] /\
  drop (length (trace out.2) - 6) (trace out.2) =
    WriteCheckpoint 10 :: final_report false ++ [Log INFO "goodbye"].
Proof. vm_compute. split_and!; reflexivity. Qed.

End DemoFacts.

(** * More worked examples *)

Section MoreDemoFacts.
#[local] Existing Instances Demo.foreign Demo.contracts.
Import Demo.

Lemma add_then_remove_witness :
  let w := (apply_ops ops_ab fresh).2 in
  let added :=
    {| self := add interrupt (AsInt 4) [] [] (self w);
       env := env w; trace := trace w |} in
  (interrupt ∉ _callback (self w)) /\
  _callback (self (remove interrupt added).2) = _callback (self w) /\
  _cbk_params (self (remove interrupt added).2) = _cbk_params (self w).
Proof.
  assert (interrupt ∉ _callback (self (apply_ops ops_ab fresh).2)) as Hin.
  { assert (_callback (self (apply_ops ops_ab fresh).2) = [writer_b; writer_a])
      as -> by (vm_compute; reflexivity).
    intros Hin. repeat (apply elem_of_cons in Hin as [Hin|Hin]; [discriminate|]).
    by apply elem_of_nil in Hin. }
  split; [exact Hin|].
  exact (add_then_remove None (Some "out/traj.xyz") 10 5 false false
           (0%Z : Env) ops_ab interrupt (AsInt 4) [] [] Hin).
Defined.

Lemma notify_unregistered_witness :
  let w := (apply_ops ops_ab fresh).2 in
  (crash ∉ _callback (self w)) /\
  notify [crash; writer_a] w =
  (Raise KeyError, logged w [Log DEBUG "notify %s at step %d"]).
Proof.
  assert (crash ∉ _callback (self (apply_ops ops_ab fresh).2)) as Hin.
  { assert (_callback (self (apply_ops ops_ab fresh).2) = [writer_b; writer_a])
      as -> by (vm_compute; reflexivity).
    intros Hin. repeat (apply elem_of_cons in Hin as [Hin|Hin]; [discriminate|]).
    by apply elem_of_nil in Hin. }
  split; [exact Hin|].
  exact (notify_unregistered None (Some "out/traj.xyz") 10 5 false false
           (0%Z : Env) ops_ab crash [writer_a] Hin).
Defined.

Lemma writers_stored o :
  o ∈ [writer_b; writer_a] -> is_Some (_cbk_params (self ready) !! o).
Proof.
  intros Hin.
  repeat (apply elem_of_cons in Hin as [->|Hin]);
    [vm_compute; eexists; reflexivity..|].
  apply elem_of_nil in Hin. destruct Hin.
Defined.

Lemma writers_return o p e :
  o ∈ [writer_b; writer_a] -> _cbk_params (self ready) !! o = Some p ->
  (call_observer o (self ready) (args p) (kwargs p) e).1 = None.
Proof.
  intros Hin _.
  repeat (apply elem_of_cons in Hin as [->|Hin]); [reflexivity..|].
  apply elem_of_nil in Hin. destruct Hin.
Defined.

Lemma notify_calls_all_witness :
  (forall o, o ∈ [writer_b; writer_a] ->
             is_Some (_cbk_params (self ready) !! o)) /\
  (forall o p e, o ∈ [writer_b; writer_a] ->
     _cbk_params (self ready) !! o = Some p ->
     (call_observer o (self ready) (args p) (kwargs p) e).1 = None) /\
  (notify [writer_b; writer_a] ready).1 = Ret tt /\
  calls_of (notify_events [writer_b; writer_a] (steps (self ready))) =
    [writer_b; writer_a].
Proof.
  split; [exact writers_stored|]. split; [exact writers_return|].
  destruct (notify_calls_all [writer_b; writer_a] ready
              writers_stored writers_return) as (H1 & _ & _ & H4).
  split; [exact H1|exact H4].
Defined.

Lemma with_lambda_consistent : registry_consistent (self with_lambda).
Proof.
  assert (_callback (self with_lambda) = [writer_b; writer_a]) as Hcb
    by (vm_compute; reflexivity).
  intros c Hin. rewrite Hcb in Hin.
  repeat (apply elem_of_cons in Hin as [->|Hin]);
    [vm_compute; eexists; reflexivity..|].
  apply elem_of_nil in Hin. destruct Hin.
Defined.

Lemma report_needs_target_arguments_witness :
  registry_consistent (self with_lambda) /\
  report with_lambda =
    (Raise AttributeError,
     logged with_lambda [Log INFO "writer %s: interval=%s calls=%s"]).
Proof.
  split; [exact with_lambda_consistent|].
  exact (proj2 (report_needs_target_arguments with_lambda
                  with_lambda_consistent)
           [writer_b] writer_a [] eq_refl eq_refl eq_refl).
Defined.

(** The two ways in which the report fails: a targeter without argument,
    and a writer whose scheduler is a function. *)
Example report_failures :
  report untargeted = (Raise IndexError, untargeted) /\
  (report with_lambda).1 = Raise AttributeError /\
  (run 20 (Some 10%Z) with_lambda).1 = Raise AttributeError /\
  run_marks (trace (run 20 (Some 10%Z) with_lambda).2) = [].
Proof. vm_compute. split_and!; reflexivity. Qed.

Lemma setup_records_initial_steps_witness :
  (run_setup with_writers).1 = Ret tt /\
  initial_steps (self (run_setup with_writers).2) =
    steps (self (run_setup with_writers).2).
Proof.
  assert ((run_setup with_writers).1 = Ret tt) as H
    by (vm_compute; reflexivity).
  split; [exact H|].
  exact (proj1 (setup_records_initial_steps with_writers H)).
Defined.

Lemma run_setup_failure_is_unmarked_witness :
  (run_prelude (Some 10%Z) untargeted).1 = Raise IndexError /\
  run 20 (Some 10%Z) untargeted =
    (Raise IndexError, (run_prelude (Some 10%Z) untargeted).2).
Proof.
  assert ((run_prelude (Some 10%Z) untargeted).1 = Raise IndexError) as H
    by (vm_compute; reflexivity).
  split; [exact H|].
  exact (proj1 (run_setup_failure_is_unmarked 20 (Some 10%Z) untargeted
                  IndexError H)).
Defined.

(** A run with a targeter that was registered without argument fails in the
    report of its setup: nothing is notified and no marker is logged. *)
Example run_without_target_argument :
  let out := run 20 (Some 10%Z) untargeted in
  out.1 = Raise IndexError /\
  calls_of (trace out.2) = [] /\
  run_marks (trace out.2) = [].
Proof. vm_compute. split_and!; reflexivity. Qed.

Lemma updates_sorted_witness :
  PartialOrder Z.le /\ Total Z.le /\
  StronglySorted Z.le
    (OrderedSet.items (OrderedSet.updates Z.le [[3; 1]; [2; 1]]%Z)) /\
  NoDup (OrderedSet.items (OrderedSet.updates Z.le [[3; 1]; [2; 1]]%Z)).
Proof.
  split; [apply _|]. split; [apply _|].
  destruct (updates_sorted Z.le [[3; 1]; [2; 1]]%Z) as (H1 & H2 & _).
  split; [exact H1|exact H2].
Defined.

Lemma same_items_12 (x : Z) :
  (exists new, new ∈ [[1; 2]]%Z /\ x ∈ new) <->
  (exists new, new ∈ [[2; 1]]%Z /\ x ∈ new).
Proof.
  split; intros (new & Hn%list_elem_of_singleton & Hx); subst new;
    eexists; (split; [apply list_elem_of_here|]);
    rewrite !elem_of_cons, elem_of_nil in *; tauto.
Defined.

Lemma updates_canonical_witness :
  (forall x : Z, (exists new, new ∈ [[1; 2]]%Z /\ x ∈ new) <->
                 (exists new, new ∈ [[2; 1]]%Z /\ x ∈ new)) /\
  OrderedSet.updates Z.le [[1; 2]]%Z = OrderedSet.updates Z.le [[2; 1]]%Z.
Proof.
  split; [exact same_items_12|].
  exact (updates_canonical Z.le [[1; 2]]%Z [[2; 1]]%Z same_items_12).
Defined.

(** The example of the docstring of [OrderedSet], with numbers for the
    species: after [update([1, 3])] and [update([1, 4])] the set is
    [1, 3, 4], species 3 has index 1 and the last item is 4. *)
Example species_table :
  let table := OrderedSet.updates Z.le [[1; 3]; [1; 4]]%Z in
  OrderedSet.items table = [1; 3; 4]%Z /\
  OrderedSet.index table 3%Z = Ret 1%nat /\
  OrderedSet.__getitem__ table 0 = Ret 1%Z /\
  OrderedSet.__getitem__ table (-1) = Ret 4%Z /\
  OrderedSet.__getitem__ table 3 = Raise IndexError /\
  OrderedSet.index table 2%Z = Raise (OtherError "ValueError").
Proof. vm_compute. split_and!; reflexivity. Qed.

End MoreDemoFacts.
